(** * SparkJavaJobAnalyzerExecutor: a shallow embedding

    The executor script [SparkJavaJobAnalyzerExecutor.py] analyses a Spark
    job, stores the extracted lambdas in the pushdown filter policies of a
    remote controller, picks the source to build and drives the
    compile / package / publish / submit commands.

    Python text is modelled by [string] (ASCII text, on which [str] is the
    identity), HTTP status codes by [Z], JSON objects with known keys by
    records, a JSON object used as a dictionary by an association list in
    iteration order.  Calls that leave the process (keystone, HTTP, files,
    subprocesses, sleeps) are recorded in a chronological trace; what the
    outside world answers is read from an [env] record.  Python exceptions
    are carried by the [Raised] outcome with the name of their class.
    Diagnostic [print] statements have no effect on control flow and are
    not part of the trace. *)

From Stdlib Require Import String Ascii List ZArith Lia Bool Arith.
From Stdlib Require Import DecimalString.
Import ListNotations.

Open Scope list_scope.
Open Scope string_scope.

(** ** Python string operations *)

Module PyStr.

(** [needle in hay] *)
Fixpoint contains (needle hay : string) : bool :=
  if prefix needle hay then true
  else match hay with
       | EmptyString => false
       | String _ hay' => contains needle hay'
       end.

(** [s[n:]] for [0 <= n] *)
Fixpoint drop (n : nat) (s : string) : string :=
  match n, s with
  | O, _ => s
  | S _, EmptyString => EmptyString
  | S n', String _ s' => drop n' s'
  end.

(** [s[:n]] for [0 <= n] *)
Fixpoint take (n : nat) (s : string) : string :=
  match n, s with
  | O, _ => EmptyString
  | S _, EmptyString => EmptyString
  | S n', String c s' => String c (take n' s')
  end.

(** [s[lo:hi]]: a negative bound counts from the end, both bounds are
    clamped to the string. *)
Definition clamp (len i : Z) : nat :=
  let i' := if (i <? 0)%Z then (i + len)%Z else i in
  Z.to_nat (Z.min len (Z.max 0 i')).

Definition slice (lo hi : Z) (s : string) : string :=
  let len := Z.of_nat (String.length s) in
  let a := clamp len lo in
  let b := clamp len hi in
  take (b - a) (drop a s).

(** [s[lo:]] *)
Definition slice_from (lo : Z) (s : string) : string :=
  drop (clamp (Z.of_nat (String.length s)) lo) s.

(** [s.rfind(c)] for a one-character [c]: the highest index, or -1 *)
Fixpoint rfind_from (c : ascii) (s : string) (i : Z) (found : Z) : Z :=
  match s with
  | EmptyString => found
  | String d s' => rfind_from c s' (i + 1)%Z (if Ascii.eqb c d then i else found)
  end.

Definition rfind (c : ascii) (s : string) : Z := rfind_from c s 0%Z (-1)%Z.

(** [s.replace(old, new)]: the occurrences of [old] are found from left to
    right without overlap; the recursion is on a bound on the length of what
    is left to scan.  With an empty [old], Python puts [new] before every
    character and at the end. *)
Fixpoint replace_scan (fuel : nat) (old new s : string) : string :=
  match fuel with
  | O => s
  | S fuel' =>
      match s with
      | EmptyString => EmptyString
      | String c s' =>
          if prefix old s
          then new ++ replace_scan fuel' old new (drop (String.length old) s)
          else String c (replace_scan fuel' old new s')
      end
  end.

Fixpoint intersperse (new s : string) : string :=
  match s with
  | EmptyString => new
  | String c s' => new ++ String c (intersperse new s')
  end.

Definition replace (old new s : string) : string :=
  match old with
  | EmptyString => intersperse new s
  | String _ _ => replace_scan (String.length s) old new s
  end.

(** [str(n)] for a non-negative integer *)
Definition of_nat (n : nat) : string :=
  NilEmpty.string_of_uint (Nat.to_uint n).

End PyStr.

(** ** Outcomes, the world and the monad of the script *)

Inductive outcome (A : Type) : Type :=
| Returned (a : A)
| Raised (exn : string).
Arguments Returned {A} a.
Arguments Raised {A} exn.

(** What leaves the process, in the order it happens: an event records the
    call, also when the call then fails. *)
Inductive event : Type :=
| EvKeystone (auth_url username password tenant_name : string)
| EvGet (url token : string)
| EvPut (url token params : string)
| EvAnalyzer (jar job : string)
| EvRead (path : string)
| EvWrite (path content : string)
| EvSleep (seconds : nat)
| EvPopen (cmd : string).

(** The module-level variable [valid_token] and the trace. *)
Record world : Type := mkWorld {
  valid_token : option string;
  trace : list event
}.

Definition M (A : Type) : Type := world -> outcome A * world.

Definition ret {A} (a : A) : M A := fun w => (Returned a, w).

Definition raise {A} (exn : string) : M A := fun w => (Raised exn, w).

Definition bind {A B} (m : M A) (k : A -> M B) : M B :=
  fun w => match m w with
           | (Returned a, w') => k a w'
           | (Raised exn, w') => (Raised exn, w')
           end.

Definition emit (e : event) : M unit :=
  fun w => (Returned tt, mkWorld (valid_token w) (trace w ++ [e])%list).

Definition get_valid_token : M (option string) :=
  fun w => (Returned (valid_token w), w).

Definition set_valid_token (t : option string) : M unit :=
  fun w => (Returned tt, mkWorld t (trace w)).

Declare Scope py_scope.
Delimit Scope py_scope with py.
Notation "x <- m ;; k" := (bind m (fun x => k))
  (at level 61, m at next level, right associativity) : py_scope.
Notation "m ;;; k" := (bind m (fun _ => k))
  (at level 61, right associativity) : py_scope.
Open Scope py_scope.

(** ** Data *)

(** The module constants. *)
Record config : Type := mkConfig {
  URL_CRYSTAL_API : string;
  AUTH_URL : string;
  USERNAME : string;
  PASSWORD : string;
  TENANT : string;
  EXECUTOR_LOCATION : string;
  JAVAC_PATH : string;
  SPARK_FOLDER : string;
  LAMBDA_PUSHDOWN_FILTER : string;
  AVAILABLE_RAM : string;
  AVAILABLE_CPUS : string;
  HDFS_LOCATION : string;
  HDFS_IP_PORT : string
}.

Definition SPARK_LIBS_LOCATION (cfg : config) : string :=
  SPARK_FOLDER cfg ++ "jars/".

(** The values the script is shipped with. *)
Definition shipped : config := {|
  URL_CRYSTAL_API := "http://IP:9000/";
  AUTH_URL := "http://IP:5000/v2.0";
  USERNAME := "";
  PASSWORD := "";
  TENANT := "";
  EXECUTOR_LOCATION := "";
  JAVAC_PATH := "/usr/bin/javac";
  SPARK_FOLDER := "/something/spark-2.1.1-bin-hadoop2.7/";
  LAMBDA_PUSHDOWN_FILTER := "lambdapushdown-1.0.jar";
  AVAILABLE_RAM := "28G";
  AVAILABLE_CPUS := "20";
  HDFS_LOCATION := "/something/hadoop-2.7.3/bin/hdfs dfs ";
  HDFS_IP_PORT := "IP:9000"
|}.

(** A static policy object of the controller's JSON array. *)
Record policy_obj : Type := mkPolicy {
  id : string;
  target_id : string;
  filter_name : string;
  params : string
}.

(** A lambda object: the value under ['lambda-type-and-body']. *)
Record lambda_obj : Type := mkLambda {
  lambda_type_and_body : string
}.

(** The ["lambdas"] object: container name to lambdas, in iteration order.
    The empty list also stands for the [[]] that [main] passes when pushdown
    is off. *)
Definition lambdas_map : Type := list (string * list lambda_obj).

Fixpoint dict_get (m : lambdas_map) (k : string) : option (list lambda_obj) :=
  match m with
  | [] => None
  | (k', v) :: m' => if String.eqb k k' then Some v else dict_get m' k
  end.

(** The analyzer's JSON result. *)
Record job_json : Type := mkJob {
  lambdas : lambdas_map;
  original_job_code : string;
  pushdown_job_code : string
}.

(** What the outside world answers. *)
Record env : Type := mkEnv {
  (** the keystone client, [None] when its construction raised *)
  keystone_auth_token : option string;
  (** the JSON array answered to the GET on [controller/static_policy/] *)
  static_policies : list policy_obj;
  (** the status code answered to a PUT on a url with a params string *)
  put_status : string -> string -> Z;
  (** the lines the analyzer prints for a jar and a job file *)
  analyzer_lines : string -> string -> list string;
  (** [json.load], [None] when the text is not the expected JSON *)
  json_load : string -> option job_json;
  (** the contents of a file, [None] when it cannot be opened *)
  file_contents : string -> option string;
  (** whether [open(path, 'w')], the print and the close of a text succeed *)
  can_write : string -> string -> bool;
  (** whether [subprocess.Popen] of a command returns *)
  can_launch : string -> bool
}.

(** ** Regular expressions, as [re.search] runs them *)

Module Re.

Inductive regex : Type :=
| Chr (c : ascii)
| Cls (p : ascii -> bool)
| Cat (r1 r2 : regex)
| Star (r : regex)
| Opt (r : regex).

(** The texts left after a match of [r] at the start of [s], in the order
    the backtracking matcher tries them: quantifiers are greedy.  An
    iteration of a star that consumes nothing is not repeated. *)
Fixpoint rests (fuel : nat) : regex -> string -> list string :=
  fix go (r : regex) (s : string) {struct r} : list string :=
    match r with
    | Chr c =>
        match s with
        | String d s' => if Ascii.eqb c d then [s'] else []
        | EmptyString => []
        end
    | Cls p =>
        match s with
        | String d s' => if p d then [s'] else []
        | EmptyString => []
        end
    | Cat r1 r2 => flat_map (go r2) (go r1 s)
    | Opt r1 => (go r1 s ++ [s])%list
    | Star r1 =>
        match fuel with
        | O => [s]
        | S fuel' =>
            (flat_map
               (fun s' =>
                  if Nat.ltb (String.length s') (String.length s)
                  then rests fuel' (Star r1) s'
                  else [])
               (go r1 s) ++ [s])%list
        end
    end.

(** [m.group(0)] for a match at the start of [s] *)
Definition match_here (r : regex) (s : string) : option string :=
  match rests (String.length s) r s with
  | rest :: _ => Some (PyStr.take (String.length s - String.length rest) s)
  | [] => None
  end.

(** [re.search(r, s)]: the match at the leftmost position that has one,
    given by its text [m.group(0)]; [None] when no position matches. *)
Fixpoint search (r : regex) (s : string) : option string :=
  match match_here r s with
  | Some m => Some m
  | None =>
      match s with
      | EmptyString => None
      | String _ s' => search r s'
      end
  end.

(** a literal text *)
Fixpoint lit (t : string) (k : regex) : regex :=
  match t with
  | EmptyString => k
  | String c t' => Cat (Chr c) (lit t' k)
  end.

(** [\s] without flags: space, tab, newline, return, form feed, vertical tab *)
Definition space (c : ascii) : bool :=
  let n := nat_of_ascii c in
  ((n =? 32) || ((9 <=? n) && (n <=? 13)))%nat.

(** [\w] without flags: ASCII letters, digits and the underscore *)
Definition word (c : ascii) : bool :=
  let n := nat_of_ascii c in
  (((48 <=? n) && (n <=? 57)) || ((65 <=? n) && (n <=? 90)) ||
   ((97 <=? n) && (n <=? 122)) || (n =? 95))%nat.

End Re.

Import Re.

(** the pattern of step 5: package, spaces, word characters each with an
    optional dot, spaces, semicolon *)
Definition package_re : regex :=
  lit "package"
      (Cat (Star (Cls space))
           (Cat (Star (Cat (Cls word) (Opt (Chr "."))))
                (Cat (Star (Cls space)) (Chr ";")))).

Definition dquote : string := String "034" EmptyString.
Definition newline : string := String "010" EmptyString.

(** ** The script *)

Section Script.

Variable cfg : config.
Variable e : env.

(** [get_keystone_admin_auth]: the client, or [None] when building it
    raised (the exception is caught and printed). *)
Definition get_keystone_admin_auth : M (option string) :=
  emit (EvKeystone (AUTH_URL cfg) (USERNAME cfg) (PASSWORD cfg) (TENANT cfg)) ;;;
  ret (keystone_auth_token e).

(** [get_or_update_token]: [keystone.auth_token] on [None] raises. *)
Definition get_or_update_token : M string :=
  cached <- get_valid_token ;;
  match cached with
  | Some t => ret t
  | None =>
      keystone <- get_keystone_admin_auth ;;
      match keystone with
      | None => raise "AttributeError"
      | Some t => set_valid_token (Some t) ;;; ret t
      end
  end.

(** [executeJavaAnalyzer]: the text from the first marker line on is
    handed to [json.load]. *)
Definition json_marker : string :=
  "{" ++ dquote ++ "original-job-code" ++ dquote ++ ":".

Definition json_lines (lines : list string) : string :=
  snd (fold_left
         (fun (st : bool * string) (line : string) =>
            let json_output := fst st || prefix json_marker line in
            (json_output, if json_output then snd st ++ line else snd st))
         lines (false, "")).

Definition executeJavaAnalyzer (pathToJAR pathToJobFile : string) : M job_json :=
  emit (EvAnalyzer pathToJAR pathToJobFile) ;;;
  match json_load e (json_lines (analyzer_lines e pathToJAR pathToJobFile)) with
  | Some jsonObject => ret jsonObject
  | None => raise "ValueError"
  end.

(** *** [update_filter_params] *)

(** The local variables that live across iterations of the container loop:
    [policy] is unbound until the policy loop has bound it. *)
Record locals : Type := mkLocals {
  policy : option policy_obj;
  status_code : option Z
}.

(** How an iteration of the container loop ends. *)
Inductive flow : Type :=
| Next (l : locals)
| Break (l : locals)
| Return (v : option Z).

(** Lines 75-76: [for policy in json_data:] followed by a string literal,
    which is the whole body of that loop. *)
Definition policy_loop (json_data : list policy_obj) (l : locals) : locals :=
  fold_left (fun l' p => mkLocals (Some p) (status_code l')) json_data l.

(** Reading a local variable that may be unbound. *)
Definition read_policy (l : locals) : M policy_obj :=
  match policy l with
  | Some p => ret p
  | None => raise "UnboundLocalError"
  end.

(** The test of line 77. *)
Definition is_pushdown_policy (container : string) (p : policy_obj) : bool :=
  String.eqb (filter_name p) (LAMBDA_PUSHDOWN_FILTER cfg) &&
  PyStr.contains container (target_id p).

(** Lines 91-95: the accumulation of [lambdas_as_string]. *)
Fixpoint lambdas_loop (ls : list lambda_obj) (index : nat) (lambdas_as_string : string)
  : string :=
  match ls with
  | [] => lambdas_as_string
  | jsonLambda :: ls' =>
      lambdas_loop ls' (S index)
        (lambdas_as_string ++ PyStr.of_nat index ++ "-lambda=" ++
         lambda_type_and_body jsonLambda ++ ",")
  end.

(** Line 97: [lambdas_as_string[:-1]], the params of the PUT body. *)
Definition put_params (ls : list lambda_obj) : string :=
  PyStr.slice 0 (-1) (lambdas_loop ls 0 "").

(** Lines 85-98: the update of one policy. *)
Definition put_policy (token : string) (lambdasToMigrate : lambdas_map)
    (container policy_id : string) (l : locals) : M flow :=
  let url := URL_CRYSTAL_API cfg ++ "controller/static_policy/" ++ policy_id in
  match dict_get lambdasToMigrate container with
  | None => raise "TypeError"
  | Some ls =>
      let body := put_params ls in
      emit (EvPut url token body) ;;;
      ret (Next (mkLocals (policy l) (Some (put_status e url body))))
  end.

(** Lines 73-98: one iteration of [for container in lambdasToMigrate]. *)
Definition container_body (token : string) (json_data : list policy_obj)
    (lambdasToMigrate : lambdas_map) (container : string) (l : locals) : M flow :=
  let policy_id : option string := None in
  let l := policy_loop json_data l in
  p <- read_policy l ;;
  let found := is_pushdown_policy container p in
  let policy_id := if found then Some (target_id p ++ ":" ++ id p) else policy_id in
  if found then ret (Break l)
  else
    match policy_id with
    | None => p' <- read_policy l ;; ret (Return None)
    | Some pid => put_policy token lambdasToMigrate container pid l
    end.

Fixpoint container_loop (token : string) (json_data : list policy_obj)
    (lambdasToMigrate : lambdas_map) (containers : list string) (l : locals)
  : M (option Z) :=
  match containers with
  | [] => ret (status_code l)
  | container :: rest =>
      f <- container_body token json_data lambdasToMigrate container l ;;
      match f with
      | Next l' => container_loop token json_data lambdasToMigrate rest l'
      | Break l' => ret (status_code l')
      | Return v => ret v
      end
  end.

Definition update_filter_params (lambdasToMigrate : lambdas_map) : M (option Z) :=
  token <- get_or_update_token ;;
  let url := URL_CRYSTAL_API cfg ++ "controller/static_policy/" in
  emit (EvGet url token) ;;;
  let json_data := static_policies e in
  container_loop token json_data lambdasToMigrate (map fst lambdasToMigrate)
    (mkLocals None None).

(** *** [main] *)

(** [argv[i]] *)
Definition argv_get (argv : list string) (i : nat) : M string :=
  match nth_error argv i with
  | Some a => ret a
  | None => raise "IndexError"
  end.

(** [open(path, 'r')] and [read()] *)
Definition read_file (path : string) : M string :=
  emit (EvRead path) ;;;
  match file_contents e path with
  | Some text => ret text
  | None => raise "IOError"
  end.

(** Line 142: the text between the last slash and the last dot. *)
Definition job_name_of (spark_job_path : string) : string :=
  PyStr.slice (PyStr.rfind "/" spark_job_path + 1) (PyStr.rfind "." spark_job_path)
    spark_job_path.

(** Lines 147-171: the choice of [jobToCompile], for a given routine that
    updates the filter params; its response code is only printed. *)
Definition select_source_with (update : lambdas_map -> M (option Z))
    (job_analyzer spark_job_path pushdown : string) : M string :=
  if String.eqb pushdown "True" then
    jsonObject <- executeJavaAnalyzer job_analyzer spark_job_path ;;
    let lambdasToMigrate := lambdas jsonObject in
    let originalJobCode := original_job_code jsonObject in
    let pushdownJobCode := pushdown_job_code jsonObject in
    let jobToCompile := originalJobCode in
    response <- update lambdasToMigrate ;;
    let jobToCompile := pushdownJobCode in
    ret jobToCompile
  else
    response <- update [] ;;
    text <- read_file spark_job_path ;;
    ret (PyStr.replace newline "" text).

Definition select_source : string -> string -> string -> M string :=
  select_source_with update_filter_params.

(** The package declaration written in place of the job's own. *)
Definition target_package : string :=
  "package " ++ PyStr.slice 1 (-1) (PyStr.replace "/" "." (EXECUTOR_LOCATION cfg)) ++ ";".

Definition HARNESS : string := "SparkJobMigratory".

(** Lines 174-177: [m.group(0)] on a failed search raises. *)
Definition rewrite_source (spark_job_name jobToCompile : string) : M string :=
  match search package_re jobToCompile with
  | None => raise "AttributeError"
  | Some group0 =>
      let jobToCompile := PyStr.replace group0 target_package jobToCompile in
      let jobToCompile := PyStr.replace spark_job_name HARNESS jobToCompile in
      ret jobToCompile
  end.

Definition javac_cmd : string :=
  JAVAC_PATH cfg ++ " -cp " ++ dquote ++ SPARK_LIBS_LOCATION cfg ++ "*" ++ dquote ++ " " ++
  EXECUTOR_LOCATION cfg ++ "SparkJobMigratory.java".

Definition dotted_location : string :=
  PyStr.slice_from 1 (PyStr.replace "/" "." (EXECUTOR_LOCATION cfg)).

Definition jar_cmd : string :=
  "jar -cfe " ++ EXECUTOR_LOCATION cfg ++ "SparkJobMigratory.jar " ++
  dotted_location ++ "SparkJobMigratory " ++
  EXECUTOR_LOCATION cfg ++ "SparkJobMigratory.class".

Definition hdfs_cmd : string :=
  HDFS_LOCATION cfg ++ " -put -f " ++ EXECUTOR_LOCATION cfg ++ "SparkJobMigratory.jar " ++
  " /SparkJobMigratory.jar".

Definition submit_cmd : string :=
  "bash " ++ SPARK_FOLDER cfg ++
  "bin/spark-submit --deploy-mode cluster --master spark://192.168.2.30:7077 " ++
  "--class " ++ dotted_location ++ "SparkJobMigratory " ++
  "--driver-class-path " ++ SPARK_FOLDER cfg ++ "jars/stocator-1.0.9.jar " ++
  "--conf spark.extraListeners=ch.cern.sparkmeasure.FlightRecorderStageMetrics,ch.cern.sparkmeasure.FlightRecorderTaskMetrics " ++
  "--executor-cores " ++ AVAILABLE_CPUS cfg ++ " --executor-memory " ++ AVAILABLE_RAM cfg ++
  " hdfs://" ++ HDFS_IP_PORT cfg ++ "/SparkJobMigratory.jar --jars " ++
  SPARK_FOLDER cfg ++ "jars/*.jar".

(** Lines 179-181: [open(path, 'w')], [print >> jobFile, text] and
    [close()]; each of them can raise [IOError]. *)
Definition write_file (path content : string) : M unit :=
  emit (EvWrite path content) ;;;
  if can_write e path content then ret tt else raise "IOError".

(** [subprocess.Popen(cmd, shell=True)]: the command is launched and not
    waited for; the launch itself can raise [OSError]. *)
Definition popen (cmd : string) : M unit :=
  emit (EvPopen cmd) ;;;
  if can_launch e cmd then ret tt else raise "OSError".

(** [time.sleep(seconds)] *)
Definition sleep (seconds : nat) : M unit := emit (EvSleep seconds).

(** Lines 179-218: the file is written, then the four commands are launched
    with the sleeps in between; an exception of a step ends the run. *)
Definition build_and_submit (jobToCompile : string) : M unit :=
  write_file (EXECUTOR_LOCATION cfg ++ "/SparkJobMigratory.java")
             (jobToCompile ++ newline) ;;;
  sleep 1 ;;;
  popen javac_cmd ;;;
  sleep 3 ;;;
  popen jar_cmd ;;;
  sleep 3 ;;;
  popen hdfs_cmd ;;;
  sleep 3 ;;;
  popen submit_cmd.

Definition main (argv : list string) : M unit :=
  job_analyzer <- argv_get argv 1 ;;
  spark_job_path <- argv_get argv 2 ;;
  pushdown <- argv_get argv 3 ;;
  let spark_job_name := job_name_of spark_job_path in
  jobToCompile <- select_source job_analyzer spark_job_path pushdown ;;
  jobToCompile <- rewrite_source spark_job_name jobToCompile ;;
  build_and_submit jobToCompile.

End Script.

(** ** Sample inputs *)

Definition fresh : world := mkWorld None [].

Definition no_answer : env := {|
  keystone_auth_token := Some "tok";
  static_policies := [];
  put_status := fun _ _ => 200%Z;
  analyzer_lines := fun _ _ => [];
  json_load := fun _ => None;
  file_contents := fun _ => None;
  can_write := fun _ _ => true;
  can_launch := fun _ => true
|}.

Definition with_policies (ps : list policy_obj) : env := {|
  keystone_auth_token := Some "tok";
  static_policies := ps;
  put_status := fun _ _ => 200%Z;
  analyzer_lines := fun _ _ => [];
  json_load := fun _ => None;
  file_contents := fun _ => None;
  can_write := fun _ _ => true;
  can_launch := fun _ => true
|}.

(** A world that answers with the given policies, analyzer result and job
    file. *)
Definition answering (ps : list policy_obj) (job : option job_json)
    (file : option string) : env := {|
  keystone_auth_token := Some "tok";
  static_policies := ps;
  put_status := fun _ _ => 200%Z;
  analyzer_lines := fun _ _ => ["analyzing"; "{}"];
  json_load := fun _ => job;
  file_contents := fun _ => file;
  can_write := fun _ _ => true;
  can_launch := fun _ => true
|}.

(** The shipped constants with an executor location filled in. *)
Definition deployed : config := {|
  URL_CRYSTAL_API := URL_CRYSTAL_API shipped;
  AUTH_URL := AUTH_URL shipped;
  USERNAME := USERNAME shipped;
  PASSWORD := PASSWORD shipped;
  TENANT := TENANT shipped;
  EXECUTOR_LOCATION := "/home/spark/executor/";
  JAVAC_PATH := JAVAC_PATH shipped;
  SPARK_FOLDER := SPARK_FOLDER shipped;
  LAMBDA_PUSHDOWN_FILTER := LAMBDA_PUSHDOWN_FILTER shipped;
  AVAILABLE_RAM := AVAILABLE_RAM shipped;
  AVAILABLE_CPUS := AVAILABLE_CPUS shipped;
  HDFS_LOCATION := HDFS_LOCATION shipped;
  HDFS_IP_PORT := HDFS_IP_PORT shipped
|}.

(** A job whose header comment quotes an older package declaration. *)
Definition two_declarations : string :=
  "/* was: package old.name; */ package com.acme; class Foo { Foo f; }".

(** A job whose class name is part of the harness class name. *)
Definition job_named_job : string := "package com.acme; class Job { Job j; }".

Definition no_package : string := "class Foo { Foo f; }".

Definition foo_file : string :=
  "package com.acme;" ++ newline ++ "class Foo { Foo f; }".

Definition c1_lambdas : lambdas_map := [("c1", [mkLambda "map|x->x+1"])].

Definition foo_job : job_json :=
  mkJob c1_lambdas foo_file "package com.acme; class Foo { Foo pushed; }".

Definition pushdown_on (cid : string) (target : string) : policy_obj :=
  mkPolicy cid target "lambdapushdown-1.0.jar" "".

Definition other_filter (cid : string) (target : string) : policy_obj :=
  mkPolicy cid target "compress-1.0.jar" "".

(** ** Vocabulary of the statements *)

Definition is_put (ev : event) : bool :=
  match ev with EvPut _ _ _ => true | _ => false end.

Definition is_get (ev : event) : bool :=
  match ev with EvGet _ _ => true | _ => false end.

(** The events of the build phase: the write, the sleeps, the launches. *)
Definition is_build (ev : event) : bool :=
  match ev with
  | EvWrite _ _ | EvSleep _ | EvPopen _ => true
  | _ => false
  end.

(** The events a computation adds to the trace of the world it starts in. *)
Definition new_events {A} (m : M A) (w : world) : list event :=
  skipn (List.length (trace w)) (trace (snd (m w))).

(** [w'] continues [w] with events that all satisfy [P]. *)
Definition continues (P : event -> bool) (w w' : world) : Prop :=
  exists evs, trace w' = (trace w ++ evs)%list /\ forallb P evs = true.

Definition not_build (ev : event) : bool := negb (is_build ev).

(** The token a call of [get_or_update_token] ends with, if any: the cached
    one, else the one of the keystone client. *)
Definition token_of (e : env) (w : world) : option string :=
  match valid_token w with
  | Some t => Some t
  | None => keystone_auth_token e
  end.

(** The call to keystone that [get_or_update_token] makes when no token is
    cached. *)
Definition keystone_events (cfg : config) (w : world) : list event :=
  match valid_token w with
  | Some _ => []
  | None => [EvKeystone (AUTH_URL cfg) (USERNAME cfg) (PASSWORD cfg) (TENANT cfg)]
  end.

(** The GET of the policy list. *)
Definition policy_list_get (cfg : config) (token : string) : event :=
  EvGet (URL_CRYSTAL_API cfg ++ "controller/static_policy/") token.

(** The world after a call of [get_or_update_token]. *)
Definition after_token (cfg : config) (e : env) (w : world) : world :=
  match valid_token w with
  | Some _ => w
  | None => mkWorld (keystone_auth_token e)
                    (trace w ++ [EvKeystone (AUTH_URL cfg) (USERNAME cfg) (PASSWORD cfg) (TENANT cfg)])%list
  end.

(** The world after the GET on the policy list. *)
Definition after_get (cfg : config) (e : env) (w : world) (token : string) : world :=
  mkWorld (valid_token (after_token cfg e w))
          (trace (after_token cfg e w) ++
           [EvGet (URL_CRYSTAL_API cfg ++ "controller/static_policy/") token])%list.

(** Container [c] has a pushdown filter policy in the fetched list. *)
Definition has_pushdown_policy (cfg : config) (e : env) (c : string) : bool :=
  existsb (is_pushdown_policy cfg c) (static_policies e).

(** The params string as the specification words it: the entry
    [<i>-lambda=<body>] of each lambda at its index, joined by commas. *)
Fixpoint params_entries (index : nat) (ls : list lambda_obj) : list string :=
  match ls with
  | [] => []
  | l :: ls' =>
      (PyStr.of_nat index ++ "-lambda=" ++ lambda_type_and_body l)
        :: params_entries (S index) ls'
  end.

Definition expected_params (ls : list lambda_obj) : string :=
  String.concat "," (params_entries 0 ls).

(** The entries as the loop leaves them: each followed by its comma. *)
Fixpoint entries_with_commas (es : list string) : string :=
  match es with
  | [] => ""
  | x :: es' => x ++ "," ++ entries_with_commas es'
  end.

(** The number of positions of a text at which the pattern matches. *)
Fixpoint count_matches (r : regex) (s : string) : nat :=
  match match_here r s with Some _ => 1 | None => 0 end +
  match s with
  | EmptyString => 0
  | String _ s' => count_matches r s'
  end.

(** [P] holds of every non-empty end of [s]. *)
Fixpoint on_suffixes (P : string -> bool) (s : string) : bool :=
  match s with
  | EmptyString => true
  | String _ s' => P s && on_suffixes P s'
  end.

(** One text starts with the other. *)
Definition clash (a b : string) : bool := prefix a b || prefix b a.

(** [old] is not empty and no occurrence of [old] can share a character
    with an occurrence of [new]: no non-empty end of one is a start of the
    other, and neither lies within the other. *)
Definition overlap_free (old new : string) : bool :=
  negb (String.eqb old "") &&
  on_suffixes (fun x => negb (clash x new)) old &&
  on_suffixes (fun z => negb (clash old z)) new.

(** ** Vocabulary of the further properties *)

Definition is_keystone (ev : event) : bool :=
  match ev with EvKeystone _ _ _ _ => true | _ => false end.

Definition is_analyzer (ev : event) : bool :=
  match ev with EvAnalyzer _ _ => true | _ => false end.

Definition is_read (ev : event) : bool :=
  match ev with EvRead _ => true | _ => false end.

(** The calls of lines 179-218 for a final source [out], with the commands
    written out. *)
Definition stage_list (cfg : config) (out : string) : list event :=
  [EvWrite (EXECUTOR_LOCATION cfg ++ "/SparkJobMigratory.java") (out ++ newline);
   EvSleep 1;
   EvPopen (JAVAC_PATH cfg ++ " -cp " ++ dquote ++ (SPARK_FOLDER cfg ++ "jars/") ++
            "*" ++ dquote ++ " " ++ EXECUTOR_LOCATION cfg ++ "SparkJobMigratory.java");
   EvSleep 3;
   EvPopen ("jar -cfe " ++ EXECUTOR_LOCATION cfg ++ "SparkJobMigratory.jar " ++
            PyStr.slice_from 1 (PyStr.replace "/" "." (EXECUTOR_LOCATION cfg)) ++
            "SparkJobMigratory " ++
            EXECUTOR_LOCATION cfg ++ "SparkJobMigratory.class");
   EvSleep 3;
   EvPopen (HDFS_LOCATION cfg ++ " -put -f " ++ EXECUTOR_LOCATION cfg ++
            "SparkJobMigratory.jar " ++ " /SparkJobMigratory.jar");
   EvSleep 3;
   EvPopen ("bash " ++ SPARK_FOLDER cfg ++
            "bin/spark-submit --deploy-mode cluster --master spark://192.168.2.30:7077 " ++
            "--class " ++
            PyStr.slice_from 1 (PyStr.replace "/" "." (EXECUTOR_LOCATION cfg)) ++
            "SparkJobMigratory " ++
            "--driver-class-path " ++ SPARK_FOLDER cfg ++ "jars/stocator-1.0.9.jar " ++
            "--conf spark.extraListeners=ch.cern.sparkmeasure.FlightRecorderStageMetrics,ch.cern.sparkmeasure.FlightRecorderTaskMetrics " ++
            "--executor-cores " ++ AVAILABLE_CPUS cfg ++ " --executor-memory " ++
            AVAILABLE_RAM cfg ++
            " hdfs://" ++ HDFS_IP_PORT cfg ++ "/SparkJobMigratory.jar --jars " ++
            SPARK_FOLDER cfg ++ "jars/*.jar")].

(** Whether the world lets a call of the build phase return, and the
    exception the call raises when it does not. *)
Definition stage_ok (e : env) (ev : event) : bool :=
  match ev with
  | EvWrite path content => can_write e path content
  | EvPopen cmd => can_launch e cmd
  | _ => true
  end.

Definition stage_exn (ev : event) : string :=
  match ev with
  | EvPopen _ => "OSError"
  | _ => "IOError"
  end.

(** The calls of a list that are made when they are made in order until one
    raises, and the outcome of making them. *)
Fixpoint performed (e : env) (evs : list event) : list event :=
  match evs with
  | [] => []
  | ev :: rest => ev :: (if stage_ok e ev then performed e rest else [])
  end.

Fixpoint perform_outcome (e : env) (evs : list event) : outcome unit :=
  match evs with
  | [] => Returned tt
  | ev :: rest => if stage_ok e ev then perform_outcome e rest else Raised (stage_exn ev)
  end.



(** [c in s] for a character [c] *)
Fixpoint has_char (c : ascii) (s : string) : bool :=
  match s with
  | EmptyString => false
  | String d s' => Ascii.eqb c d || has_char c s'
  end.

(** [P] holds of every character of [s]. *)
Fixpoint all_chars (P : ascii -> bool) (s : string) : bool :=
  match s with
  | EmptyString => true
  | String d s' => P d && all_chars P s'
  end.

(** The characters the pattern of step 5 lets stand between the keyword and
    the semicolon. *)
Definition declaration_char (c : ascii) : bool :=
  space c || word c || Ascii.eqb c ".".

(** The lines of the analyzer, one after the other. *)
Fixpoint join_lines (lines : list string) : string :=
  match lines with
  | [] => ""
  | line :: lines' => line ++ join_lines lines'
  end.

(** Every character a match of [r] can consume satisfies [P]. *)
Fixpoint chars_in (P : ascii -> bool) (r : regex) : Prop :=
  match r with
  | Chr c => P c = true
  | Cls p => forall d, p d = true -> P d = true
  | Cat r1 r2 => chars_in P r1 /\ chars_in P r2
  | Star r1 => chars_in P r1
  | Opt r1 => chars_in P r1
  end.

(** The events of a call of [update_filter_params], and of the choice of
    the source in each mode. *)
Definition keystone_or_get (ev : event) : bool := is_keystone ev || is_get ev.

Definition pushdown_on_event (ev : event) : bool :=
  is_analyzer ev || is_keystone ev || is_get ev.

Definition pushdown_off_event (ev : event) : bool :=
  is_keystone ev || is_get ev || is_read ev.

(** A keystone that cannot be reached, and one that hands out another
    token. *)
Definition no_keystone : env := {|
  keystone_auth_token := None;
  static_policies := [];
  put_status := fun _ _ => 200%Z;
  analyzer_lines := fun _ _ => [];
  json_load := fun _ => None;
  file_contents := fun _ => None;
  can_write := fun _ _ => true;
  can_launch := fun _ => true
|}.

Definition rekeyed : env := {|
  keystone_auth_token := Some "tok2";
  static_policies := [];
  put_status := fun _ _ => 200%Z;
  analyzer_lines := fun _ _ => [];
  json_load := fun _ => None;
  file_contents := fun _ => None;
  can_write := fun _ _ => true;
  can_launch := fun _ => true
|}.

(** A world in which a token is cached. *)
Definition cached : world := mkWorld (Some "cached-token") [].

Definition pushdown_argv : list string :=
  ["executor.py"; "analyzer.jar"; "/jobs/Foo.java"; "True"].

Definition plain_argv : list string :=
  ["executor.py"; "analyzer.jar"; "/jobs/Foo.java"; "False"].

(** A line that does not start with the marker of the JSON result. *)
Definition no_marker (line : string) : bool := negb (prefix json_marker line).

(** The body of the loop of lines 43-46. *)
Definition scan_step (st : bool * string) (line : string) : bool * string :=
  let json_output := fst st || prefix json_marker line in
  (json_output, if json_output then snd st ++ line else snd st).

(** A policy list in which a pushdown policy of container [c1] comes before
    a policy of another filter. *)
Definition pushdown_then_other : list policy_obj :=
  [pushdown_on "7" "AUTH_x/c1"; other_filter "8" "AUTH_x/c1"].

(** An analyzer that prints two diagnostic lines before its result. *)
Definition chatty_lines : list string :=
  ["Parsing job"; "Found 1 lambda";
   json_marker ++ " ..., "; "  ...}"].

(** ** Facts on strings *)

Module PyStrFacts.
Import PyStr.

Lemma append_nil_r (s : string) : s ++ "" = s.
Proof. induction s as [|c s IH]; simpl; [reflexivity | now rewrite IH]. Qed.

Lemma append_assoc (a b c : string) : (a ++ b) ++ c = a ++ b ++ c.
Proof. induction a as [|x a IH]; simpl; [reflexivity | now rewrite IH]. Qed.

Lemma length_append (a b : string) :
  String.length (a ++ b) = String.length a + String.length b.
Proof. induction a as [|x a IH]; simpl; [reflexivity | now rewrite IH]. Qed.

Lemma take_append (a b : string) : take (String.length a) (a ++ b) = a.
Proof. induction a as [|x a IH]; simpl; [now destruct b | now rewrite IH]. Qed.

Lemma drop_append (a b : string) : drop (String.length a) (a ++ b) = b.
Proof. induction a as [|x a IH]; simpl; [reflexivity | exact IH]. Qed.

Lemma length_drop (n : nat) (s : string) :
  String.length (drop n s) = String.length s - n.
Proof.
  revert s. induction n as [|n IH]; intros s; simpl; [lia|].
  destruct s as [|c s]; simpl; [reflexivity | apply IH].
Qed.

(** [s[:-1]] drops the last character. *)
Lemma slice_drop_last (s : string) (c : ascii) :
  slice 0 (-1) (s ++ String c "") = s.
Proof.
  unfold slice, clamp. rewrite length_append. cbn [String.length].
  replace (String.length s + 1) with (S (String.length s)) by lia.
  rewrite Nat2Z.inj_succ.
  change (0 <? 0)%Z with false. change (-1 <? 0)%Z with true. cbv iota.
  replace (Z.to_nat (Z.min (Z.succ (Z.of_nat (String.length s)))
                           (Z.max 0 0))) with 0 by lia.
  replace (Z.to_nat (Z.min (Z.succ (Z.of_nat (String.length s)))
                           (Z.max 0 (-1 + Z.succ (Z.of_nat (String.length s))))))
    with (String.length s) by lia.
  rewrite Nat.sub_0_r. cbn [drop]. apply take_append.
Qed.

Lemma prefix_append (a b : string) : prefix a (a ++ b) = true.
Proof.
  induction a as [|x a IH]; simpl; [now destruct b|].
  destruct (ascii_dec x x); [exact IH | congruence].
Qed.

Lemma prefix_split (a s : string) :
  prefix a s = true -> s = a ++ drop (String.length a) s.
Proof.
  revert s. induction a as [|x a IH]; intros s H; [reflexivity|].
  destruct s as [|y s]; simpl in H; [discriminate|].
  destruct (ascii_dec x y) as [->|]; [|discriminate].
  simpl. f_equal. apply IH, H.
Qed.

Lemma prefix_nil (s : string) : prefix "" s = true.
Proof. now destruct s. Qed.

Lemma prefix_cons (x y : ascii) (a s : string) :
  prefix (String x a) (String y s) = Ascii.eqb x y && prefix a s.
Proof.
  simpl. destruct (ascii_dec x y) as [->|n].
  - now rewrite Ascii.eqb_refl.
  - apply Ascii.eqb_neq in n. now rewrite n.
Qed.

Lemma prefix_app_cases (x a b : string) :
  prefix x (a ++ b) = true -> prefix x a = true \/ prefix a x = true.
Proof.
  revert x. induction a as [|c a IH]; intros x H.
  - right. apply prefix_nil.
  - destruct x as [|d x]; [left; reflexivity|].
    cbn [append] in H. rewrite prefix_cons in H |- *. rewrite (prefix_cons c d).
    apply andb_prop in H as [Hdc Hx]. rewrite Hdc.
    apply Ascii.eqb_eq in Hdc as ->. rewrite Ascii.eqb_refl.
    exact (IH x Hx).
Qed.

Lemma contains_cons_eq (n : string) (c : ascii) (s : string) :
  contains n (String c s) = prefix n (String c s) || contains n s.
Proof. cbn [contains]. now destruct (prefix n (String c s)). Qed.

Lemma contains_nil_eq (n : string) : contains n "" = prefix n "".
Proof. cbn [contains]. now destruct (prefix n ""). Qed.

Lemma contains_prefix (n s : string) : prefix n s = true -> contains n s = true.
Proof. intros H. destruct s; cbn [contains]; now rewrite H. Qed.

Lemma contains_app_r (n u s : string) :
  contains n s = true -> contains n (u ++ s) = true.
Proof.
  intros H. induction u as [|c u IH]; [exact H|].
  cbn [append]. rewrite contains_cons_eq, IH. apply orb_true_r.
Qed.

Lemma contains_middle (u m v : string) : contains m (u ++ m ++ v) = true.
Proof. apply contains_app_r, contains_prefix, prefix_append. Qed.

Lemma on_suffixes_spec (P : string -> bool) (s : string) :
  on_suffixes P s = true ->
  forall y x, s = y ++ x -> x <> "" -> P x = true.
Proof.
  induction s as [|c s IH]; intros H y x Hs Hx.
  - destruct y; [cbn in Hs; congruence | discriminate].
  - cbn [on_suffixes] in H. apply andb_prop in H as [Hhead Htail].
    destruct y as [|d y].
    + cbn in Hs. now subst x.
    + cbn [append] in Hs. injection Hs as _ Hs. exact (IH Htail y x Hs Hx).
Qed.

End PyStrFacts.

(** ** The monad *)

Lemma bind_returned {A B} (m : M A) (k : A -> M B) w a w' :
  m w = (Returned a, w') -> bind m k w = k a w'.
Proof. intros H. unfold bind. rewrite H. reflexivity. Qed.

Lemma bind_raised {A B} (m : M A) (k : A -> M B) w exn w' :
  m w = (Raised exn, w') -> bind m k w = (Raised exn, w').
Proof. intros H. unfold bind. rewrite H. reflexivity. Qed.

Lemma new_events_app {A} (m : M A) w evs :
  trace (snd (m w)) = (trace w ++ evs)%list -> new_events m w = evs.
Proof.
  intros H. unfold new_events. rewrite H.
  rewrite skipn_app, skipn_all, Nat.sub_diag. reflexivity.
Qed.

(** ** The policy reconciler *)

Section Reconciler.

Variable cfg : config.
Variable e : env.

Lemma get_or_update_token_run w :
  get_or_update_token cfg e w =
  (match token_of e w with
   | Some t => Returned t
   | None => Raised "AttributeError"
   end, after_token cfg e w).
Proof.
  unfold get_or_update_token, token_of, after_token, bind, get_valid_token,
    get_keystone_admin_auth, emit, set_valid_token, ret, raise.
  destruct w as [vt tr]; simpl.
  destruct vt as [t|]; simpl; [reflexivity|].
  destruct (keystone_auth_token e); reflexivity.
Qed.

Lemma last_default_irrelevant {A} (l : list A) (b d d' : A) :
  last (b :: l) d = last (b :: l) d'.
Proof.
  revert b. induction l as [|c l IH]; intros b; [reflexivity|].
  change (last (c :: l) d = last (c :: l) d'). apply IH.
Qed.

Lemma last_cons_default {A} (l : list A) (a d : A) :
  last (a :: l) d = last l a.
Proof.
  destruct l as [|b l]; [reflexivity|].
  change (last (b :: l) d = last (b :: l) a). apply last_default_irrelevant.
Qed.

Lemma policy_loop_status js l : status_code (policy_loop js l) = status_code l.
Proof.
  revert l. induction js as [|p js IH]; intros l; simpl; [reflexivity|].
  unfold policy_loop in IH. rewrite IH. reflexivity.
Qed.

Lemma policy_loop_policy js l :
  policy (policy_loop js l) =
  match js with
  | [] => policy l
  | p :: js' => Some (last js' p)
  end.
Proof.
  revert l. induction js as [|p js IH]; intros l; [reflexivity|].
  change (policy_loop (p :: js) l)
    with (policy_loop js (mkLocals (Some p) (status_code l))).
  rewrite IH. destruct js as [|q js]; [reflexivity|].
  f_equal. symmetry. apply last_cons_default.
Qed.

(** An iteration of the container loop leaves the world as it is and never
    goes on to the next container: on a hit the [break] of line 79 belongs to
    the container loop, on a miss line 83 returns. *)
Lemma container_body_run token js lam c l w :
  container_body cfg e token js lam c l w =
  (match policy (policy_loop js l) with
   | None => Raised "UnboundLocalError"
   | Some p =>
       Returned (if is_pushdown_policy cfg c p
                 then Break (policy_loop js l)
                 else Return None)
   end, w).
Proof.
  unfold container_body, read_policy, bind, ret, raise.
  destruct (policy (policy_loop js l)) as [p|]; [|reflexivity].
  destruct (is_pushdown_policy cfg c p); reflexivity.
Qed.

Lemma container_loop_run token js lam cs w :
  container_loop cfg e token js lam cs (mkLocals None None) w =
  (match cs, js with
   | [], _ => Returned None
   | _ :: _, [] => Raised "UnboundLocalError"
   | _ :: _, _ :: _ => Returned None
   end, w).
Proof.
  destruct cs as [|c cs]; [reflexivity|].
  cbn [container_loop]. unfold bind.
  rewrite container_body_run, policy_loop_policy.
  destruct js as [|p js]; [reflexivity|].
  destruct (is_pushdown_policy cfg c (last js p)); [|reflexivity].
  cbn. rewrite policy_loop_status. reflexivity.
Qed.

(** What a call of [update_filter_params] does, for every argument. *)
Lemma update_filter_params_run lam w :
  update_filter_params cfg e lam w =
  match token_of e w with
  | None => (Raised "AttributeError", after_token cfg e w)
  | Some token =>
      (match lam, static_policies e with
       | [], _ => Returned None
       | _ :: _, [] => Raised "UnboundLocalError"
       | _ :: _, _ :: _ => Returned None
       end, after_get cfg e w token)
  end.
Proof.
  unfold update_filter_params, bind. rewrite get_or_update_token_run.
  destruct (token_of e w) as [token|]; [|reflexivity].
  unfold emit. rewrite container_loop_run. unfold after_get.
  destruct lam; reflexivity.
Qed.

Lemma after_token_trace w :
  exists evs, trace (after_token cfg e w) = (trace w ++ evs)%list /\
              forallb (fun ev => negb (is_put ev) && negb (is_build ev)) evs = true.
Proof.
  unfold after_token. destruct (valid_token w).
  - exists []. rewrite app_nil_r. split; reflexivity.
  - exists [EvKeystone (AUTH_URL cfg) (USERNAME cfg) (PASSWORD cfg) (TENANT cfg)]. split; reflexivity.
Qed.

(** A call adds no PUT and no build event to the trace. *)
Lemma update_filter_params_events lam w :
  forallb (fun ev => negb (is_put ev) && negb (is_build ev))
          (new_events (update_filter_params cfg e lam) w) = true.
Proof.
  destruct (after_token_trace w) as (evs & Htr & Hevs).
  unfold new_events. rewrite update_filter_params_run.
  destruct (token_of e w) as [token|]; cbn [snd after_get trace].
  - rewrite Htr, <- app_assoc, skipn_app, skipn_all, Nat.sub_diag. cbn [skipn app].
    rewrite forallb_app, Hevs. reflexivity.
  - rewrite Htr, skipn_app, skipn_all, Nat.sub_diag. exact Hevs.
Qed.

End Reconciler.

(** ** The params encoding *)

Section Params.
Import PyStrFacts.

Variable cfg : config.
Variable e : env.

Lemma lambdas_loop_acc ls index acc :
  lambdas_loop ls index acc = acc ++ entries_with_commas (params_entries index ls).
Proof.
  revert index acc. induction ls as [|l ls IH]; intros index acc;
    cbn [lambdas_loop params_entries entries_with_commas].
  - now rewrite append_nil_r.
  - rewrite IH. now rewrite !append_assoc.
Qed.

Lemma entries_with_commas_concat es :
  es <> [] -> entries_with_commas es = String.concat "," es ++ ",".
Proof.
  induction es as [|x es IH]; intros Hne; [congruence|].
  destruct es as [|y es].
  - reflexivity.
  - change (String.concat "," (x :: y :: es))
      with (x ++ "," ++ String.concat "," (y :: es)).
    change (entries_with_commas (x :: y :: es))
      with (x ++ "," ++ entries_with_commas (y :: es)).
    rewrite IH by discriminate. now rewrite !append_assoc.
Qed.

Lemma put_params_expected ls : ls <> [] -> put_params ls = expected_params ls.
Proof.
  intros Hne. unfold put_params, expected_params.
  rewrite lambdas_loop_acc. cbn [append].
  rewrite entries_with_commas_concat by (destruct ls; [congruence | discriminate]).
  apply slice_drop_last.
Qed.

End Params.

(** ** Claims on the policy reconciler *)

Section ReconcilerClaims.

Variable cfg : config.
Variable e : env.

(** C1: when a requested container has no pushdown filter policy in the
    fetched list, the reconciliation is to report the missing policy and to
    issue no PUT.  Here the container ["c1"] is requested and the controller
    answers with an empty policy list: no PUT is issued, but the call does
    not report anything, it ends in the [UnboundLocalError] of the read of
    [policy] on line 77. *)
Theorem missing_policy_on_empty_list_raises :
  has_pushdown_policy shipped no_answer "c1" = false /\
  update_filter_params shipped no_answer c1_lambdas fresh =
    (Raised "UnboundLocalError",
     mkWorld (Some "tok")
       [EvKeystone "http://IP:5000/v2.0" (USERNAME shipped) (PASSWORD shipped)
          (TENANT shipped);
        EvGet "http://IP:9000/controller/static_policy/" "tok"]).
Proof. split; reflexivity. Qed.

(** C2: for a container with a non-empty lambda sequence, the params string
    in the body of the PUT is to be the indexed entries joined by commas.
    Here container ["c1"] has one lambda and the fetched list holds its
    pushdown policy; lines 91-97 would encode the lambda as
    ["0-lambda=map|x->x+1"], but the [break] of line 79 leaves the container
    loop: the call returns [None] and sends no PUT, so no params string
    reaches the controller. *)
Theorem matching_policy_sends_no_params :
  has_pushdown_policy shipped (with_policies [pushdown_on "7" "AUTH_x/c1"]) "c1" = true /\
  dict_get c1_lambdas "c1" = Some [mkLambda "map|x->x+1"] /\
  put_params [mkLambda "map|x->x+1"] = "0-lambda=map|x->x+1" /\
  update_filter_params shipped (with_policies [pushdown_on "7" "AUTH_x/c1"])
    c1_lambdas fresh =
    (Returned None,
     mkWorld (Some "tok")
       [EvKeystone "http://IP:5000/v2.0" (USERNAME shipped) (PASSWORD shipped)
          (TENANT shipped);
        EvGet "http://IP:9000/controller/static_policy/" "tok"]) /\
  filter is_put
    (new_events
       (update_filter_params shipped (with_policies [pushdown_on "7" "AUTH_x/c1"])
          c1_lambdas) fresh) = [].
Proof. repeat split; reflexivity. Qed.

(** C3: for a container [c] of the mapping, a PUT is attempted only if the
    fetched policy list holds an entry whose filter name is the pushdown
    filter identifier and whose target id contains [c]: when [c] has no such
    entry, the call sends no PUT. *)
Theorem no_put_without_pushdown_policy lam w c :
  In c (map fst lam) ->
  has_pushdown_policy cfg e c = false ->
  filter is_put (new_events (update_filter_params cfg e lam) w) = [].
Proof.
  intros _ _.
  pose proof (update_filter_params_events cfg e lam w) as H.
  induction (new_events (update_filter_params cfg e lam) w) as [|ev evs IH];
    [reflexivity|].
  cbn [forallb] in H. apply andb_prop in H as [Hev Hevs].
  apply andb_prop in Hev as [Hput _].
  cbn [filter]. destruct (is_put ev); [discriminate | now apply IH].
Qed.


(** C10: the value returned for the empty mapping is the value returned
    when a required pushdown policy is missing: both calls return the absent
    status [None], which does not tell them apart. *)
Theorem empty_and_missing_return_the_same lam w c :
  token_of e w <> None ->
  static_policies e <> [] ->
  In c (map fst lam) ->
  has_pushdown_policy cfg e c = false ->
  fst (update_filter_params cfg e lam w) = Returned None /\
  fst (update_filter_params cfg e [] w) = fst (update_filter_params cfg e lam w).
Proof.
  intros Htok Hps Hin _.
  rewrite !update_filter_params_run.
  destruct (token_of e w) as [token|]; [|congruence].
  destruct lam as [|cl lam]; [contradiction|].
  destruct (static_policies e); [congruence|]. split; reflexivity.
Qed.

End ReconcilerClaims.

(** ** Claims on the choice of the source *)

Section SourceClaims.

Variable cfg : config.
Variable e : env.

Lemma update_filter_params_new_events lam w token :
  token_of e w = Some token ->
  new_events (update_filter_params cfg e lam) w =
    (keystone_events cfg w ++ [policy_list_get cfg token])%list.
Proof.
  intros Htok. apply new_events_app.
  rewrite update_filter_params_run, Htok. cbn [snd after_get trace].
  unfold after_token, keystone_events. destruct (valid_token w); cbn [trace].
  - reflexivity.
  - now rewrite <- app_assoc.
Qed.

Lemma after_get_trace w token :
  trace (after_get cfg e w token) =
    (trace w ++ keystone_events cfg w ++ [policy_list_get cfg token])%list.
Proof.
  unfold after_get, after_token, keystone_events, policy_list_get.
  destruct (valid_token w); cbn [trace]; [reflexivity | now rewrite <- app_assoc].
Qed.


(** C5: with the pushdown flag ["True"], the source selected for building
    is the pushdown source of the analyzer's result, whatever response the
    update of the filter params returns; a missing policy (the response
    [None]) does not bring the original source back. *)
Theorem pushdown_on_selects_pushdown_source
    (update : lambdas_map -> M (option Z)) analyzer path w job response w' :
  json_load e (json_lines (analyzer_lines e analyzer path)) = Some job ->
  update (lambdas job)
         (mkWorld (valid_token w) (trace w ++ [EvAnalyzer analyzer path])%list) =
    (Returned response, w') ->
  select_source_with e update analyzer path "True" w =
    (Returned (pushdown_job_code job), w').
Proof.
  intros Hjson Hupdate.
  unfold select_source_with. cbn [String.eqb Ascii.eqb Bool.eqb].
  unfold executeJavaAnalyzer, bind, emit, ret. rewrite Hjson, Hupdate.
  reflexivity.
Qed.

End SourceClaims.

(** ** The run of [main] *)

Section MainRun.

Variable cfg : config.
Variable e : env.

Lemma continues_refl P w : continues P w w.
Proof. exists []. now rewrite app_nil_r. Qed.

Lemma continues_trans P w1 w2 w3 :
  continues P w1 w2 -> continues P w2 w3 -> continues P w1 w3.
Proof.
  intros (evs1 & H1 & F1) (evs2 & H2 & F2). exists (evs1 ++ evs2)%list.
  rewrite H2, H1, app_assoc, forallb_app, F1, F2. now split.
Qed.

Lemma continues_emit P ev w :
  P ev = true -> continues P w (snd (emit ev w)).
Proof. intros H. exists [ev]. cbn. now rewrite H. Qed.

Lemma continues_new_events {A} P (m : M A) w :
  continues P w (snd (m w)) -> forallb P (new_events m w) = true.
Proof. intros (evs & H & F). now rewrite (new_events_app m w evs H). Qed.

Lemma update_filter_params_continues lam w :
  continues not_build w (snd (update_filter_params cfg e lam w)).
Proof.
  rewrite update_filter_params_run.
  destruct (token_of e w) as [token|]; cbn [snd].
  - exists (keystone_events cfg w ++ [policy_list_get cfg token])%list.
    split; [apply after_get_trace|].
    unfold keystone_events. now destruct (valid_token w).
  - exists (keystone_events cfg w). unfold after_token, keystone_events.
    destruct (valid_token w); cbn [trace]; [now rewrite app_nil_r | now split].
Qed.

Lemma executeJavaAnalyzer_continues jar job w :
  continues not_build w (snd (executeJavaAnalyzer e jar job w)).
Proof.
  unfold executeJavaAnalyzer, bind.
  destruct (emit (EvAnalyzer jar job) w) as [[[]|exn] w1] eqn:He;
    inversion He; subst; cbn [snd].
  destruct (json_load e _); cbn [snd ret raise]; now apply (continues_emit not_build).
Qed.

Lemma read_file_continues path w :
  continues not_build w (snd (read_file e path w)).
Proof.
  unfold read_file, bind. cbn [emit].
  destruct (file_contents e path); cbn [snd ret raise];
    now apply (continues_emit not_build (EvRead path)).
Qed.

(** The choice of the source adds no event of the build phase. *)
Lemma select_source_continues analyzer path flag w :
  continues not_build w (snd (select_source cfg e analyzer path flag w)).
Proof.
  unfold select_source, select_source_with.
  destruct (String.eqb flag "True").
  - unfold bind at 1.
    pose proof (executeJavaAnalyzer_continues analyzer path w) as H1.
    destruct (executeJavaAnalyzer e analyzer path w) as [[job|exn] w1];
      cbn [snd] in *; [|exact H1].
    unfold bind.
    pose proof (update_filter_params_continues (lambdas job) w1) as H2.
    destruct (update_filter_params cfg e (lambdas job) w1) as [[r|exn] w2];
      cbn [snd ret] in *; now apply (continues_trans _ w w1 w2).
  - unfold bind at 1.
    pose proof (update_filter_params_continues [] w) as H1.
    destruct (update_filter_params cfg e [] w) as [[r|exn] w1];
      cbn [snd] in *; [|exact H1].
    unfold bind.
    pose proof (read_file_continues path w1) as H2.
    destruct (read_file e path w1) as [[text|exn] w2];
      cbn [snd ret] in *; now apply (continues_trans _ w w1 w2).
Qed.


Lemma main_run argv analyzer path flag w :
  nth_error argv 1 = Some analyzer ->
  nth_error argv 2 = Some path ->
  nth_error argv 3 = Some flag ->
  main cfg e argv w =
  bind (select_source cfg e analyzer path flag)
       (fun src => bind (rewrite_source cfg (job_name_of path) src)
                        (build_and_submit cfg e)) w.
Proof.
  intros H1 H2 H3. unfold main, argv_get. rewrite H1, H2, H3. reflexivity.
Qed.

(** The build phase makes the calls of [stage_list] in order until one
    raises. *)
Lemma build_and_submit_run out w :
  build_and_submit cfg e out w =
  (perform_outcome e (stage_list cfg out),
   mkWorld (valid_token w) (trace w ++ performed e (stage_list cfg out))%list).
Proof.
  unfold build_and_submit, write_file, popen, sleep, bind, emit, ret, raise,
    stage_list, javac_cmd, jar_cmd, hdfs_cmd, submit_cmd, dotted_location,
    SPARK_LIBS_LOCATION.
  cbn [performed perform_outcome stage_ok stage_exn valid_token trace].
  repeat match goal with
         | |- context [if ?b then _ else _] => destruct b
         end;
    cbn [valid_token trace]; rewrite <- ?app_assoc; reflexivity.
Qed.




Lemma performed_forall (Q : event -> bool) evs :
  forallb Q evs = true -> forallb Q (performed e evs) = true.
Proof.
  induction evs as [|ev evs IH]; [reflexivity|]. cbn [forallb performed].
  intros H. apply andb_prop in H as [Hev Hevs]. rewrite Hev.
  destruct (stage_ok e ev); [now apply IH | reflexivity].
Qed.

End MainRun.

(** ** Claims on the rewriting and on the build phase *)

Section BuildClaims.

Variable cfg : config.
Variable e : env.

Lemma filter_none {A} (P : A -> bool) (l : list A) :
  forallb (fun x => negb (P x)) l = true -> filter P l = [].
Proof.
  induction l as [|x l IH]; [reflexivity|]. cbn [forallb filter].
  intros H. apply andb_prop in H as [Hx Hl].
  destruct (P x); [discriminate | now apply IH].
Qed.

(** C7, as the code has it: when the selected source has no package
    declaration that the pattern matches, the rewriting step fails with the
    [AttributeError] of [m.group(0)] on the absent match, an error that does
    not name the package declaration, and no event of the build phase
    happens. *)
Theorem missing_package_raises_attribute_error argv analyzer path flag src w w1 :
  nth_error argv 1 = Some analyzer ->
  nth_error argv 2 = Some path ->
  nth_error argv 3 = Some flag ->
  select_source cfg e analyzer path flag w = (Returned src, w1) ->
  search package_re src = None ->
  rewrite_source cfg (job_name_of path) src w1 = (Raised "AttributeError", w1) /\
  fst (main cfg e argv w) = Raised "AttributeError" /\
  filter is_build (new_events (main cfg e argv) w) = [].
Proof.
  intros H1 H2 H3 Hsel Hsearch.
  assert (Hrw : rewrite_source cfg (job_name_of path) src w1 =
                (Raised "AttributeError", w1)).
  { unfold rewrite_source. now rewrite Hsearch. }
  assert (Hmain : main cfg e argv w = (Raised "AttributeError", w1)).
  { rewrite (main_run cfg e argv analyzer path flag w H1 H2 H3).
    rewrite (bind_returned _ _ _ _ _ Hsel).
    now rewrite (bind_raised _ _ _ _ _ Hrw). }
  split; [exact Hrw|]. split; [now rewrite Hmain|].
  apply filter_none. apply (continues_new_events not_build).
  rewrite Hmain. cbn [snd].
  pose proof (select_source_continues cfg e analyzer path flag w) as Hc.
  now rewrite Hsel in Hc.
Qed.


End BuildClaims.

(** ** Replacement and search *)

Section Replace.
Import PyStr PyStrFacts.

Variables old new : string.
Hypothesis old_not_empty : old <> "".

(** After a replacement the text holds [new] if it held [old]. *)
Lemma replace_scan_contains_new fuel s :
  String.length s <= fuel ->
  contains old s = true ->
  contains new (replace_scan fuel old new s) = true.
Proof.
  revert s. induction fuel as [|fuel IH]; intros s Hlen Hold.
  - destruct s; [|cbn in Hlen; lia].
    rewrite contains_nil_eq in Hold. destruct old; [congruence | discriminate].
  - destruct s as [|c s].
    + rewrite contains_nil_eq in Hold. destruct old; [congruence | discriminate].
    + cbn [replace_scan]. destruct (prefix old (String c s)) eqn:Hp.
      * apply contains_prefix, prefix_append.
      * rewrite contains_cons_eq, Hp in Hold. cbn [orb] in Hold.
        rewrite contains_cons_eq, IH; [apply orb_true_r | cbn in Hlen; lia | exact Hold].
Qed.

(** The bound on the scan does not matter once it covers the text: the
    scan of [replace] always runs to the end. *)
Lemma replace_scan_enough n m s :
  String.length s <= n -> String.length s <= m ->
  replace_scan n old new s = replace_scan m old new s.
Proof.
  assert (Hpos : 0 < String.length old) by (destruct old; [congruence | cbn; lia]).
  revert m s. induction n as [|n IH]; intros m s Hn Hm.
  - destruct s; [now destruct m | cbn in Hn; lia].
  - destruct m as [|m]; [destruct s; [reflexivity | cbn in Hm; lia]|].
    destruct s as [|c s]; [reflexivity|]. cbn [replace_scan].
    destruct (prefix old (String c s)).
    + f_equal. apply IH; rewrite length_drop; cbn [String.length] in *; lia.
    + f_equal. apply IH; cbn [String.length] in *; lia.
Qed.

Hypothesis old_ends_free : on_suffixes (fun x => negb (clash x new)) old = true.
Hypothesis new_ends_free : on_suffixes (fun z => negb (clash old z)) new = true.

(** An end of [old] that starts the replaced text starts the text. *)
Lemma replace_scan_prefix fuel s y x :
  old = y ++ x ->
  prefix x (replace_scan fuel old new s) = true ->
  prefix x s = true.
Proof.
  revert s y x. induction fuel as [|fuel IH]; intros s y x Hx H; [exact H|].
  destruct s as [|c s]; [exact H|].
  destruct x as [|d x]; [reflexivity|].
  cbn [replace_scan] in H. destruct (prefix old (String c s)) eqn:Hp.
  - assert (Hfree : negb (clash (String d x) new) = true)
      by (apply (on_suffixes_spec _ old old_ends_free y); [exact Hx | discriminate]).
    apply prefix_app_cases in H. unfold clash in Hfree.
    destruct H as [H|H]; rewrite H in Hfree; [discriminate|].
    now rewrite orb_true_r in Hfree.
  - rewrite prefix_cons in H |- *. apply andb_prop in H as [Hdc H].
    rewrite Hdc. cbn [andb].
    apply (IH s (y ++ String d "") x); [|exact H].
    rewrite Hx, append_assoc. reflexivity.
Qed.

(** An occurrence of [old] in [z ++ t], for an end [z] of [new], lies in
    [t]. *)
Lemma contains_after_new y z t :
  new = y ++ z ->
  contains old (z ++ t) = true ->
  contains old t = true.
Proof.
  revert y. induction z as [|c z IH]; intros y Hz H; [exact H|].
  cbn [append] in H. rewrite contains_cons_eq in H.
  apply orb_prop in H as [H|H].
  - assert (Hfree : negb (clash old (String c z)) = true)
      by (apply (on_suffixes_spec _ new new_ends_free y); [exact Hz | discriminate]).
    change (String c (z ++ t)) with (String c z ++ t) in H.
    apply prefix_app_cases in H. unfold clash in Hfree.
    destruct H as [H|H]; rewrite H in Hfree; [discriminate|].
    now rewrite orb_true_r in Hfree.
  - apply (IH (y ++ String c "")); [|exact H].
    rewrite Hz, append_assoc. reflexivity.
Qed.

(** The replaced text has no occurrence of [old]. *)
Lemma replace_scan_free fuel s :
  String.length s <= fuel ->
  contains old (replace_scan fuel old new s) = false.
Proof.
  assert (Hnil : contains old "" = false).
  { rewrite contains_nil_eq. destruct old; [congruence | reflexivity]. }
  assert (Hpos : 0 < String.length old) by (destruct old; [congruence | cbn; lia]).
  revert s. induction fuel as [|fuel IH]; intros s Hlen.
  - destruct s; [exact Hnil | cbn in Hlen; lia].
  - destruct s as [|c s]; [exact Hnil|].
    destruct (prefix old (String c s)) eqn:Hp.
    + cbn [replace_scan]. rewrite Hp.
      destruct (contains old (new ++ replace_scan fuel old new
                                (drop (String.length old) (String c s)))) eqn:Hc;
        [|reflexivity].
      apply (contains_after_new "" new) in Hc; [|reflexivity].
      rewrite IH in Hc; [discriminate|].
      rewrite length_drop. cbn [String.length] in Hlen |- *. lia.
    + destruct (contains old (replace_scan (S fuel) old new (String c s))) eqn:Hc;
        [|reflexivity].
      cbn [replace_scan] in Hc. rewrite Hp in Hc.
      rewrite contains_cons_eq in Hc. rewrite IH in Hc by (cbn in Hlen; lia).
      rewrite orb_false_r in Hc.
      assert (Hp' : prefix old (String c s) = true).
      { apply (replace_scan_prefix (S fuel) (String c s) "" old); [reflexivity|].
        cbn [replace_scan]. rewrite Hp. exact Hc. }
      congruence.
Qed.

End Replace.

Section Search.
Import PyStr PyStrFacts.

Lemma rests_Cat fuel r1 r2 s :
  rests fuel (Cat r1 r2) s = flat_map (rests fuel r2) (rests fuel r1 s).
Proof. destruct fuel; reflexivity. Qed.

Lemma rests_Opt fuel r s : rests fuel (Opt r) s = (rests fuel r s ++ [s])%list.
Proof. destruct fuel; reflexivity. Qed.

Lemma rests_Star fuel r s :
  rests (S fuel) (Star r) s =
  (flat_map (fun s' => if Nat.ltb (String.length s') (String.length s)
                       then rests fuel (Star r) s' else [])
            (rests (S fuel) r s) ++ [s])%list.
Proof. reflexivity. Qed.

(** What is left after a match is an end of the text. *)
Lemma rests_suffix fuel r s rest :
  In rest (rests fuel r s) -> exists pre, s = pre ++ rest.
Proof.
  revert r s rest. induction fuel as [|fuel IHf]; intros r;
    induction r as [c|p|r1 IH1 r2 IH2|r1 IH1|r1 IH1]; intros s rest H.
  1,2,6,7:
    destruct s as [|d s]; cbn in H; [contradiction|];
    match type of H with
    | In _ (if ?b then _ else _) => destruct b
    end; cbn in H; [destruct H as [<-|[]]; now exists (String d "") | contradiction].
  1,4:
    rewrite rests_Cat in H; apply in_flat_map in H as (mid & Hmid & Hrest);
    apply IH1 in Hmid as (p1 & ->); apply IH2 in Hrest as (p2 & ->);
    exists (p1 ++ p2); now rewrite append_assoc.
  2,4:
    rewrite rests_Opt in H; apply in_app_or in H as [H|[<-|[]]];
    [now apply IH1 | now exists ""].
  - cbn in H. destruct H as [<-|[]]. now exists "".
  - rewrite rests_Star in H. apply in_app_or in H as [H|[<-|[]]]; [|now exists ""].
    apply in_flat_map in H as (mid & Hmid & Hrest).
    apply IH1 in Hmid as (p1 & ->).
    destruct (Nat.ltb _ _); [|contradiction].
    apply IHf in Hrest as (p2 & ->).
    exists (p1 ++ p2). now rewrite append_assoc.
Qed.

Lemma match_here_split r s m :
  match_here r s = Some m -> exists rest, s = m ++ rest.
Proof.
  unfold match_here. destruct (rests (String.length s) r s) as [|rest l] eqn:Hr;
    [discriminate|].
  intros [= <-].
  destruct (rests_suffix (String.length s) r s rest) as (pre & Hs);
    [rewrite Hr; now left|].
  exists rest. subst s. rewrite length_append.
  replace (String.length pre + String.length rest - String.length rest)
    with (String.length pre) by lia.
  now rewrite take_append.
Qed.

(** The text of a match found by [search] occurs in the text searched. *)
Lemma search_contains r s m : search r s = Some m -> contains m s = true.
Proof.
  induction s as [|c s IH]; cbn [search]; intros H.
  - destruct (match_here r "") as [m'|] eqn:Hm; [|discriminate].
    injection H as ->. apply match_here_split in Hm as (rest & Hs).
    rewrite Hs. apply contains_prefix, prefix_append.
  - destruct (match_here r (String c s)) as [m'|] eqn:Hm.
    + injection H as ->. apply match_here_split in Hm as (rest & Hs).
      rewrite Hs. apply contains_prefix, prefix_append.
    + rewrite contains_cons_eq, (IH H). apply orb_true_r.
Qed.

Lemma rests_length fuel r s rest :
  In rest (rests fuel r s) -> String.length rest <= String.length s.
Proof.
  intros H. apply rests_suffix in H as (pre & ->). rewrite length_append. lia.
Qed.

Lemma flat_map_agree {A B} (f g : A -> list B) (l : list A) :
  (forall a, In a l -> f a = g a) -> flat_map f l = flat_map g l.
Proof.
  induction l as [|a l IH]; intros H; [reflexivity|]. cbn [flat_map].
  rewrite (H a (or_introl eq_refl)), IH; [reflexivity|].
  intros b Hb. apply H. now right.
Qed.

Lemma flat_map_empty {A B} (f : A -> list B) (l : list A) :
  (forall a, In a l -> f a = []) -> flat_map f l = [].
Proof.
  intros H. rewrite (flat_map_agree f (fun _ => []) l H). clear H.
  induction l as [|a l IH]; [reflexivity | exact IH].
Qed.

Lemma rests_Star_empty fuel r : rests fuel (Star r) "" = [""].
Proof.
  destruct fuel as [|fuel]; [reflexivity|]. rewrite rests_Star.
  rewrite flat_map_empty; [reflexivity|]. intros a _. reflexivity.
Qed.

(** The bound on the iterations of a star does not matter once it covers
    the text: a match is never cut short. *)
Lemma rests_enough n m r s :
  String.length s <= n -> String.length s <= m -> rests n r s = rests m r s.
Proof.
  revert m r s. induction n as [|n IHn]; intros m r;
    induction r as [c|p|r1 IH1 r2 IH2|r1 IH1|r1 IH1]; intros s Hn Hm.
  1,2,6,7: destruct m; reflexivity.
  1,4:
    rewrite !rests_Cat, (IH1 s Hn Hm); apply flat_map_agree; intros mid Hmid;
    apply rests_length in Hmid; apply IH2; lia.
  2,4: rewrite !rests_Opt, (IH1 s Hn Hm); reflexivity.
  - destruct s; [now rewrite !rests_Star_empty | cbn in Hn; lia].
  - destruct m as [|m].
    { destruct s; [now rewrite !rests_Star_empty | cbn in Hm; lia]. }
    rewrite !rests_Star, (IH1 s Hn Hm). f_equal.
    apply flat_map_agree. intros mid _.
    destruct (Nat.ltb (String.length mid) (String.length s)) eqn:Hlt; [|reflexivity].
    apply Nat.ltb_lt in Hlt. apply IHn; lia.
Qed.

Lemma match_here_enough fuel r s :
  String.length s <= fuel ->
  match_here r s =
  match rests fuel r s with
  | rest :: _ => Some (take (String.length s - String.length rest) s)
  | [] => None
  end.
Proof.
  intros H. unfold match_here. now rewrite (rests_enough (String.length s) fuel).
Qed.

End Search.

Section RewriteClaims.
Import PyStr PyStrFacts.

Variable cfg : config.

Lemma replace_contains_new old new s :
  contains old s = true -> contains new (replace old new s) = true.
Proof.
  intros H. destruct old as [|c old].
  - apply contains_prefix. cbn [replace].
    destruct s; cbn [intersperse]; [|apply prefix_append].
    rewrite <- (append_nil_r new) at 2. apply prefix_append.
  - cbn [replace]. apply replace_scan_contains_new; [discriminate | lia | exact H].
Qed.

Lemma replace_free old new s :
  overlap_free old new = true -> contains old (replace old new s) = false.
Proof.
  unfold overlap_free. intros H.
  apply andb_prop in H as [H Hnew]. apply andb_prop in H as [Hne Hold].
  destruct old as [|c old]; [discriminate|].
  cbn [replace]. apply replace_scan_free; [discriminate | exact Hold | exact Hnew | lia].
Qed.

(** C8, as the code has it: for a selected source in which the pattern finds
    a package declaration, the rewriting step returns the text in which
    every occurrence of the text of the leftmost declaration is replaced by
    the target package declaration and then every occurrence of the job's
    class name by SparkJobMigratory.  After the first replacement the text
    holds the target declaration; declarations with another text are kept.
    The result has no occurrence of the class name when the name is not
    empty and cannot overlap the harness name. *)
Theorem rewrite_replaces_declaration_and_name name src w group0 :
  search package_re src = Some group0 ->
  rewrite_source cfg name src w =
    (Returned (replace name HARNESS (replace group0 (target_package cfg) src)), w) /\
  contains (target_package cfg) (replace group0 (target_package cfg) src) = true /\
  (overlap_free name HARNESS = true ->
   contains name
     (replace name HARNESS (replace group0 (target_package cfg) src)) = false).
Proof.
  intros Hsearch. split; [|split].
  - unfold rewrite_source. now rewrite Hsearch.
  - apply replace_contains_new. exact (search_contains _ _ _ Hsearch).
  - intros Hfree. now apply replace_free.
Qed.

End RewriteClaims.

(** ** The claims at sample inputs *)

Lemma no_put_without_pushdown_policy_witness :
  has_pushdown_policy shipped (with_policies [other_filter "7" "AUTH_x/c1"]) "c1" = false /\
  filter is_put
    (new_events
       (update_filter_params shipped (with_policies [other_filter "7" "AUTH_x/c1"])
          c1_lambdas) fresh) = [].
Proof.
  split; [reflexivity|].
  apply (no_put_without_pushdown_policy shipped
           (with_policies [other_filter "7" "AUTH_x/c1"]) c1_lambdas fresh "c1");
    [left; reflexivity | reflexivity].
Defined.



Lemma pushdown_on_selects_pushdown_source_witness :
  has_pushdown_policy deployed
    (answering [other_filter "7" "AUTH_x/c1"] (Some foo_job) None) "c1" = false /\
  select_source deployed (answering [other_filter "7" "AUTH_x/c1"] (Some foo_job) None)
    "analyzer.jar" "/jobs/Foo.java" "True" fresh =
    (Returned (pushdown_job_code foo_job),
     mkWorld (Some "tok")
       [EvAnalyzer "analyzer.jar" "/jobs/Foo.java";
        EvKeystone "http://IP:5000/v2.0" (USERNAME shipped) (PASSWORD shipped)
          (TENANT shipped);
        EvGet "http://IP:9000/controller/static_policy/" "tok"]).
Proof.
  split; [reflexivity|].
  apply (pushdown_on_selects_pushdown_source
           (answering [other_filter "7" "AUTH_x/c1"] (Some foo_job) None)
           (update_filter_params deployed
              (answering [other_filter "7" "AUTH_x/c1"] (Some foo_job) None))
           "analyzer.jar" "/jobs/Foo.java" fresh foo_job None);
    reflexivity.
Defined.



Lemma empty_and_missing_return_the_same_witness :
  has_pushdown_policy shipped (with_policies [other_filter "7" "AUTH_x/c1"]) "c1" = false /\
  fst (update_filter_params shipped (with_policies [other_filter "7" "AUTH_x/c1"])
         c1_lambdas fresh) = Returned None /\
  fst (update_filter_params shipped (with_policies [other_filter "7" "AUTH_x/c1"])
         [] fresh) =
  fst (update_filter_params shipped (with_policies [other_filter "7" "AUTH_x/c1"])
         c1_lambdas fresh).
Proof.
  split; [reflexivity|].
  apply (empty_and_missing_return_the_same shipped
           (with_policies [other_filter "7" "AUTH_x/c1"]) c1_lambdas fresh "c1");
    [discriminate | discriminate | left; reflexivity | reflexivity].
Defined.

(** C7 fails as stated: the error of a source without package declaration
    is the [AttributeError] of the absent match, not a [SourceFormatError]. *)
Lemma missing_package_error_is_not_a_source_format_error :
  search package_re no_package = None /\
  fst (rewrite_source shipped "Foo" no_package fresh) = Raised "AttributeError" /\
  fst (rewrite_source shipped "Foo" no_package fresh) <> Raised "SourceFormatError".
Proof.
  split; [reflexivity|]. split; [reflexivity|].
  vm_compute. intros H. discriminate H.
Qed.

Lemma missing_package_raises_attribute_error_witness :
  search package_re no_package = None /\
  fst (main deployed (answering [] None (Some no_package))
         ["executor.py"; "analyzer.jar"; "/jobs/Foo.java"; "False"] fresh) =
    Raised "AttributeError" /\
  filter is_build
    (new_events (main deployed (answering [] None (Some no_package))
                   ["executor.py"; "analyzer.jar"; "/jobs/Foo.java"; "False"])
       fresh) = [].
Proof.
  split; [reflexivity|].
  apply (missing_package_raises_attribute_error deployed
           (answering [] None (Some no_package))
           ["executor.py"; "analyzer.jar"; "/jobs/Foo.java"; "False"]
           "analyzer.jar" "/jobs/Foo.java" "False" no_package fresh
           (mkWorld (Some "tok")
              [EvKeystone "http://IP:5000/v2.0" (USERNAME shipped) (PASSWORD shipped)
          (TENANT shipped);
               EvGet "http://IP:9000/controller/static_policy/" "tok";
               EvRead "/jobs/Foo.java"]));
    reflexivity.
Defined.

(** C8 fails as stated, with the shipped constants and with an executor
    location filled in: a second declaration with another text is kept, and
    a class name that is part of the harness name is still there. *)
Lemma rewritten_source_keeps_declarations_and_names :
  (search package_re two_declarations = Some "package old.name;" /\
   fst (rewrite_source shipped "Foo" two_declarations fresh) =
     Returned "/* was: package ; */ package com.acme; class SparkJobMigratory { SparkJobMigratory f; }" /\
   count_matches package_re
     "/* was: package ; */ package com.acme; class SparkJobMigratory { SparkJobMigratory f; }" = 2 /\
   fst (rewrite_source deployed "Foo" two_declarations fresh) =
     Returned "/* was: package home.spark.executor; */ package com.acme; class SparkJobMigratory { SparkJobMigratory f; }" /\
   count_matches package_re
     "/* was: package home.spark.executor; */ package com.acme; class SparkJobMigratory { SparkJobMigratory f; }" = 2) /\
  (search package_re job_named_job = Some "package com.acme;" /\
   job_name_of "/jobs/Job.java" = "Job" /\
   fst (rewrite_source shipped "Job" job_named_job fresh) =
     Returned "package ; class SparkJobMigratory { SparkJobMigratory j; }" /\
   PyStr.contains "Job"
     "package ; class SparkJobMigratory { SparkJobMigratory j; }" = true).
Proof. repeat split; reflexivity. Qed.

Lemma rewrite_replaces_declaration_and_name_witness :
  search package_re two_declarations = Some "package old.name;" /\
  overlap_free "Foo" HARNESS = true /\
  PyStr.contains (target_package deployed)
    (PyStr.replace "package old.name;" (target_package deployed) two_declarations) = true /\
  PyStr.contains "Foo"
    (PyStr.replace "Foo" HARNESS
       (PyStr.replace "package old.name;" (target_package deployed) two_declarations))
    = false.
Proof.
  split; [reflexivity|]. split; [reflexivity|].
  destruct (rewrite_replaces_declaration_and_name deployed "Foo" two_declarations
              fresh "package old.name;" eq_refl) as (_ & Htarget & Hname).
  split; [exact Htarget | exact (Hname eq_refl)].
Defined.



(** ** Further properties: the token *)

Section Token.

Variable cfg : config.
Variable e : env.

Lemma after_token_valid w t :
  token_of e w = Some t -> valid_token (after_token cfg e w) = Some t.
Proof.
  unfold token_of, after_token. destruct (valid_token w) eqn:Hv; intros H.
  - now rewrite Hv.
  - exact H.
Qed.

Lemma cached_token_run (cfg' : config) (e' : env) w t :
  valid_token w = Some t -> get_or_update_token cfg' e' w = (Returned t, w).
Proof.
  intros Hv. rewrite get_or_update_token_run. unfold token_of, after_token.
  now rewrite Hv.
Qed.

(** X1: Once a call of [get_or_update_token] has returned a token, every later
    call returns that token and leaves the world as it is, whatever the
    constants and whatever keystone would answer then. *)
Theorem token_is_acquired_once w t w1 (cfg' : config) (e' : env) :
  get_or_update_token cfg e w = (Returned t, w1) ->
  get_or_update_token cfg' e' w1 = (Returned t, w1).
Proof.
  rewrite get_or_update_token_run. intros H.
  destruct (token_of e w) as [t'|] eqn:Htok; [|discriminate].
  injection H as -> <-.
  apply cached_token_run. exact (after_token_valid w t Htok).
Qed.

(** X2: A failed acquisition is not cached: with no token cached and no
    keystone client the call raises [AttributeError] after one call to
    keystone and leaves [valid_token] unset, and a later call asks keystone
    again and returns the token it then gets. *)
Theorem failed_acquisition_is_retried w (e' : env) t :
  valid_token w = None ->
  keystone_auth_token e = None ->
  keystone_auth_token e' = Some t ->
  fst (get_or_update_token cfg e w) = Raised "AttributeError" /\
  valid_token (snd (get_or_update_token cfg e w)) = None /\
  new_events (get_or_update_token cfg e) w =
    [EvKeystone (AUTH_URL cfg) (USERNAME cfg) (PASSWORD cfg) (TENANT cfg)] /\
  fst (get_or_update_token cfg e' (snd (get_or_update_token cfg e w))) = Returned t /\
  filter is_keystone
    (new_events (get_or_update_token cfg e') (snd (get_or_update_token cfg e w))) =
    [EvKeystone (AUTH_URL cfg) (USERNAME cfg) (PASSWORD cfg) (TENANT cfg)].
Proof.
  intros Hv He He'.
  assert (H1 : get_or_update_token cfg e w =
               (Raised "AttributeError",
                mkWorld None
                  (trace w ++ [EvKeystone (AUTH_URL cfg) (USERNAME cfg)
                                 (PASSWORD cfg) (TENANT cfg)])%list)).
  { rewrite get_or_update_token_run. unfold token_of, after_token.
    now rewrite Hv, He. }
  assert (Hn1 : new_events (get_or_update_token cfg e) w =
                [EvKeystone (AUTH_URL cfg) (USERNAME cfg) (PASSWORD cfg) (TENANT cfg)])
    by (apply new_events_app; now rewrite H1).
  rewrite Hn1, H1. cbn [fst snd valid_token].
  split; [reflexivity|]. split; [reflexivity|]. split; [reflexivity|].
  assert (H2 : get_or_update_token cfg e'
                 (mkWorld None
                    (trace w ++ [EvKeystone (AUTH_URL cfg) (USERNAME cfg)
                                   (PASSWORD cfg) (TENANT cfg)])%list) =
               (Returned t,
                mkWorld (Some t)
                  ((trace w ++ [EvKeystone (AUTH_URL cfg) (USERNAME cfg)
                                  (PASSWORD cfg) (TENANT cfg)]) ++
                   [EvKeystone (AUTH_URL cfg) (USERNAME cfg)
                      (PASSWORD cfg) (TENANT cfg)])%list)).
  { rewrite get_or_update_token_run. unfold token_of, after_token.
    cbn [valid_token trace]. now rewrite He'. }
  split; [now rewrite H2|].
  erewrite new_events_app; [|rewrite H2; reflexivity]. reflexivity.
Qed.

End Token.

(** ** Further properties: the policy reconciler *)

Section ReconcilerMore.

Variable cfg : config.
Variable e : env.

(** X3: A call of [update_filter_params] never sends a PUT and never returns a
    status code: whatever the mapping, the policy list and the answers of
    the controller, no policy is updated. *)
Theorem update_filter_params_updates_nothing lam w :
  filter is_put (new_events (update_filter_params cfg e lam) w) = [] /\
  forall code : Z, fst (update_filter_params cfg e lam w) <> Returned (Some code).
Proof.
  split.
  - apply filter_none.
    pose proof (update_filter_params_events cfg e lam w) as H.
    induction (new_events (update_filter_params cfg e lam) w) as [|ev evs IH];
      [reflexivity|].
    cbn [forallb] in H |- *. apply andb_prop in H as [Hev Hevs].
    apply andb_prop in Hev as [Hput _]. now rewrite Hput, IH.
  - intros code. rewrite update_filter_params_run.
    destruct (token_of e w); [|discriminate].
    destruct lam; [discriminate|]. destruct (static_policies e); discriminate.
Qed.


(** X5: An iteration of the container loop looks at the last policy of the list
    only: when the last policy is not a pushdown policy of the container,
    the iteration reports the policy as missing, also when an earlier entry
    of the list is one. *)
Theorem only_the_last_policy_is_tested token js q lam c l w :
  is_pushdown_policy cfg c q = false ->
  container_body cfg e token (js ++ [q])%list lam c l w = (Returned (Return None), w).
Proof.
  intros Hq. rewrite container_body_run, policy_loop_policy.
  destruct js as [|p js]; cbn [app].
  - cbn [last]. now rewrite Hq.
  - cbv iota. rewrite last_last. now rewrite Hq.
Qed.

End ReconcilerMore.

(** ** Further properties: the analyzer's output *)

Section AnalyzerOutput.
Import PyStrFacts.

Variable e : env.

Lemma scan_started lines acc :
  fold_left scan_step lines (true, acc) = (true, acc ++ join_lines lines).
Proof.
  revert acc. induction lines as [|line lines IH]; intros acc; cbn [fold_left join_lines].
  - now rewrite append_nil_r.
  - unfold scan_step at 2. cbn [fst snd orb]. rewrite IH. now rewrite append_assoc.
Qed.

Lemma scan_before lines acc :
  forallb no_marker lines = true ->
  fold_left scan_step lines (false, acc) = (false, acc).
Proof.
  induction lines as [|line lines IH]; intros H; [reflexivity|].
  cbn [forallb] in H. apply andb_prop in H as [Hline Hlines].
  cbn [fold_left]. unfold scan_step at 2. cbn [fst snd orb].
  unfold no_marker in Hline. apply negb_true_iff in Hline. rewrite Hline.
  exact (IH Hlines).
Qed.

(** X7: What is handed to [json.load] is the text from the first line that
    starts with the marker on, to the end of the output: the lines before
    that line are dropped, every line after it is kept, marker or not. *)
Theorem json_lines_from_first_marker pre line post :
  forallb no_marker pre = true ->
  prefix json_marker line = true ->
  json_lines (pre ++ line :: post) = join_lines (line :: post).
Proof.
  intros Hpre Hline. unfold json_lines.
  change (fold_left _ (pre ++ line :: post) (false, ""))
    with (fold_left scan_step (pre ++ line :: post) (false, "")).
  rewrite fold_left_app, (scan_before pre "" Hpre). cbn [fold_left].
  unfold scan_step at 2. cbn [fst snd orb]. rewrite Hline.
  now rewrite scan_started.
Qed.

(** X8: When no line of the analyzer starts with the marker, [json.load] is
    given the empty text, whatever the analyzer printed: the result of
    [executeJavaAnalyzer] is what the parser makes of the empty text. *)
Theorem analyzer_without_marker_parses_nothing jar job w :
  forallb no_marker (analyzer_lines e jar job) = true ->
  json_lines (analyzer_lines e jar job) = "" /\
  fst (executeJavaAnalyzer e jar job w) =
    match json_load e "" with
    | Some jsonObject => Returned jsonObject
    | None => Raised "ValueError"
    end.
Proof.
  intros H.
  assert (Hj : json_lines (analyzer_lines e jar job) = "").
  { unfold json_lines.
    change (fold_left _ (analyzer_lines e jar job) (false, ""))
      with (fold_left scan_step (analyzer_lines e jar job) (false, "")).
    now rewrite (scan_before _ "" H). }
  split; [exact Hj|].
  unfold executeJavaAnalyzer, bind, emit. rewrite Hj.
  now destruct (json_load e "").
Qed.

End AnalyzerOutput.

(** ** Further properties: replacement in texts *)

Section ReplaceMore.
Import PyStr PyStrFacts.

Lemma has_char_app c a b : has_char c (a ++ b) = has_char c a || has_char c b.
Proof.
  induction a as [|d a IH]; [reflexivity|]. cbn [append has_char].
  now rewrite IH, orb_assoc.
Qed.

Lemma replace_char_cons c new d s :
  replace (String c "") new (String d s) =
  (if Ascii.eqb c d then new else String d "") ++ replace (String c "") new s.
Proof.
  cbn [replace String.length replace_scan].
  rewrite prefix_cons, prefix_nil, andb_true_r.
  destruct (Ascii.eqb c d); reflexivity.
Qed.

Lemma replace_char_nil c new : replace (String c "") new "" = "".
Proof. reflexivity. Qed.

Lemma replaced_char_is_gone_aux c new s :
  has_char c new = false ->
  has_char c (replace (String c "") new s) = false.
Proof.
  intros Hnew. induction s as [|d s IH]; [reflexivity|].
  rewrite replace_char_cons, has_char_app, IH, orb_false_r.
  destruct (Ascii.eqb c d) eqn:Hcd; [exact Hnew|].
  cbn [has_char]. now rewrite Hcd.
Qed.

(** Replacing a character by a text without that character removes it:
    after [text.replace('\n', '')] the text has no newline, after
    [location.replace('/', '.')] no slash. *)
Lemma replaced_char_is_gone c new s :
  has_char c new = false ->
  has_char c (replace (String c "") new s) = false.
Proof. apply replaced_char_is_gone_aux. Qed.

Lemma replace_char_app c new a b :
  replace (String c "") new (a ++ b) =
  replace (String c "") new a ++ replace (String c "") new b.
Proof.
  induction a as [|d a IH]; [reflexivity|].
  cbn [append]. now rewrite !replace_char_cons, IH, append_assoc.
Qed.

(** A replacement leaves a text without occurrence of [old] as it is. *)
Lemma replace_absent old new s :
  old <> "" -> contains old s = false -> replace old new s = s.
Proof.
  intros Hold H. destruct old as [|c old]; [congruence|]. cbn [replace].
  remember (String.length s) as fuel eqn:Hfuel. clear Hfuel.
  revert s H. induction fuel as [|fuel IH]; intros s H; [reflexivity|].
  destruct s as [|d s]; [reflexivity|].
  rewrite contains_cons_eq in H. apply orb_false_elim in H as [Hp Hc].
  cbn [replace_scan]. rewrite Hp. f_equal. exact (IH s Hc).
Qed.

(** With an empty [old] the replacement puts [new] before every character
    and at the end: the text grows by one [new] per character and one
    more. *)
Lemma replace_empty_length new s :
  String.length (replace "" new s) =
  String.length s + (String.length s + 1) * String.length new.
Proof.
  cbn [replace]. induction s as [|d s IH]; cbn [intersperse String.length].
  - lia.
  - rewrite length_append. cbn [String.length]. rewrite IH. lia.
Qed.

End ReplaceMore.

(** ** Further properties: the name of the job *)

Section JobName.
Import PyStr PyStrFacts.

Lemma rfind_from_absent c s i found :
  has_char c s = false -> rfind_from c s i found = found.
Proof.
  revert i found. induction s as [|d s IH]; intros i found H; [reflexivity|].
  cbn [has_char] in H. apply orb_false_elim in H as [Hcd Hs].
  cbn [rfind_from]. rewrite Hcd. now apply IH.
Qed.

Lemma rfind_from_last c a b i found :
  has_char c b = false ->
  rfind_from c (a ++ String c b) i found = (i + Z.of_nat (String.length a))%Z.
Proof.
  intros Hb. revert i found. induction a as [|d a IH]; intros i found.
  - cbn [append rfind_from String.length]. rewrite Ascii.eqb_refl.
    rewrite rfind_from_absent by exact Hb. cbn. lia.
  - cbn [append rfind_from String.length]. rewrite IH. lia.
Qed.

Lemma rfind_last c a b :
  has_char c b = false -> rfind c (a ++ String c b) = Z.of_nat (String.length a).
Proof. intros Hb. unfold rfind. now rewrite rfind_from_last. Qed.

Lemma rfind_absent c s : has_char c s = false -> rfind c s = (-1)%Z.
Proof. intros H. unfold rfind. now apply rfind_from_absent. Qed.

Lemma clamp_nat len a : a <= len -> clamp (Z.of_nat len) (Z.of_nat a) = a.
Proof.
  intros H. unfold clamp.
  destruct (Z.ltb_spec (Z.of_nat a) 0); lia.
Qed.

Lemma clamp_minus_one len : clamp (Z.of_nat len) (-1) = len - 1.
Proof. unfold clamp. change (-1 <? 0)%Z with true. cbv iota. lia. Qed.

(** Where the directory part of a path ends: at its start when the path has
    no slash, else after its last slash. *)
Lemma after_last_slash d rest :
  d = "" \/ (exists dir, d = dir ++ "/") ->
  has_char "/" rest = false ->
  (rfind "/" (d ++ rest) + 1)%Z = Z.of_nat (String.length d).
Proof.
  intros [->|(dir & ->)] Hrest.
  - cbn [append String.length]. now rewrite rfind_absent.
  - rewrite append_assoc. cbn [append]. rewrite rfind_last by exact Hrest.
    rewrite length_append. cbn [String.length]. lia.
Qed.

(** X9: For a path [<dir>/<name>.<ext>], or [<name>.<ext>] without directory,
    whose name and extension hold neither slash nor dot, the job name of
    line 142 is [<name>]; dots in the directory do not matter. *)
Theorem job_name_of_file d name ext :
  d = "" \/ (exists dir, d = dir ++ "/") ->
  has_char "/" name = false -> has_char "." name = false ->
  has_char "/" ext = false -> has_char "." ext = false ->
  job_name_of (d ++ name ++ "." ++ ext) = name.
Proof.
  intros Hd Hn1 Hn2 He1 He2. unfold job_name_of.
  rewrite (after_last_slash d (name ++ "." ++ ext) Hd)
    by (rewrite has_char_app, Hn1; cbn; exact He1).
  replace (rfind "." (d ++ name ++ "." ++ ext))
    with (Z.of_nat (String.length (d ++ name))).
  2:{ rewrite <- append_assoc. cbn [append]. now rewrite rfind_last. }
  unfold slice. rewrite !clamp_nat
    by (rewrite !length_append; cbn [String.length]; lia).
  rewrite drop_append, length_append.
  replace (String.length d + String.length name - String.length d)
    with (String.length name) by lia.
  apply take_append.
Qed.

(** X10: For a path without any dot, the slice of line 142 ends one character
    before the end: the job name is the file name without its last
    character. *)
Theorem job_name_without_dot d f :
  d = "" \/ (exists dir, d = dir ++ "/") ->
  has_char "/" f = false ->
  has_char "." (d ++ f) = false ->
  job_name_of (d ++ f) = take (String.length f - 1) f.
Proof.
  intros Hd Hf Hdot. unfold job_name_of.
  rewrite (after_last_slash d f Hd Hf), (rfind_absent "." _ Hdot).
  unfold slice. rewrite clamp_minus_one, clamp_nat
    by (rewrite length_append; lia).
  rewrite drop_append, length_append. f_equal. lia.
Qed.

(** X11: For a path whose last dot comes before its last slash, the job name is
    empty. *)
Theorem job_name_empty_when_dot_in_directory a b f :
  has_char "." b = false -> has_char "." f = false -> has_char "/" f = false ->
  job_name_of (a ++ "." ++ b ++ "/" ++ f) = "".
Proof.
  intros Hb Hf1 Hf2. unfold job_name_of.
  replace (rfind "/" (a ++ "." ++ b ++ "/" ++ f))
    with (Z.of_nat (String.length (a ++ "." ++ b))).
  2:{ replace (a ++ "." ++ b ++ "/" ++ f) with ((a ++ "." ++ b) ++ String "/" f)
        by (now rewrite !append_assoc).
      now rewrite rfind_last. }
  replace (rfind "." (a ++ "." ++ b ++ "/" ++ f)) with (Z.of_nat (String.length a)).
  2:{ cbn [append]. rewrite rfind_last; [reflexivity|].
      rewrite has_char_app, Hb. cbn. exact Hf1. }
  unfold slice.
  replace (Z.of_nat (String.length (a ++ "." ++ b)) + 1)%Z
    with (Z.of_nat (S (String.length (a ++ "." ++ b)))) by lia.
  rewrite !clamp_nat by (rewrite !length_append; cbn [String.length]; lia).
  rewrite length_append.
  replace (String.length a - S (String.length a + String.length ("." ++ b)))
    with 0 by lia.
  reflexivity.
Qed.

End JobName.

(** ** Further properties: the package declaration *)

Section PackageDeclaration.
Import PyStr PyStrFacts.

Lemma all_chars_app P a b : all_chars P (a ++ b) = all_chars P a && all_chars P b.
Proof.
  induction a as [|d a IH]; [reflexivity|]. cbn [append all_chars].
  now rewrite IH, andb_assoc.
Qed.

Lemma all_chars_has_char P c s :
  all_chars P s = true -> P c = false -> has_char c s = false.
Proof.
  intros Hs Hc. induction s as [|d s IH]; [reflexivity|].
  cbn [all_chars] in Hs. apply andb_prop in Hs as [Hd Hs].
  cbn [has_char]. rewrite (IH Hs), orb_false_r.
  destruct (Ascii.eqb c d) eqn:Hcd; [|reflexivity].
  apply Ascii.eqb_eq in Hcd. congruence.
Qed.

Lemma rests_Chr fuel c s :
  rests fuel (Chr c) s =
  match s with
  | String d s' => if Ascii.eqb c d then [s'] else []
  | EmptyString => []
  end.
Proof. destruct fuel; reflexivity. Qed.

Lemma rests_Cls fuel p s :
  rests fuel (Cls p) s =
  match s with
  | String d s' => if p d then [s'] else []
  | EmptyString => []
  end.
Proof. destruct fuel; reflexivity. Qed.

(** What a match consumes is made of characters the pattern allows. *)
Lemma rests_chars P fuel r s rest :
  chars_in P r ->
  In rest (rests fuel r s) ->
  exists pre, s = pre ++ rest /\ all_chars P pre = true.
Proof.
  revert r s rest. induction fuel as [|fuel IHf]; intros r;
    induction r as [c|p|r1 IH1 r2 IH2|r1 IH1|r1 IH1]; intros s rest Hr H.
  1,6: rewrite rests_Chr in H; destruct s as [|d s]; [contradiction|];
       destruct (Ascii.eqb c d) eqn:Hcd; [|contradiction];
       destruct H as [<-|[]]; exists (String d ""); split; [reflexivity|];
       apply Ascii.eqb_eq in Hcd; subst d; cbn in Hr |- *; now rewrite Hr.
  1,5: rewrite rests_Cls in H; destruct s as [|d s]; [contradiction|];
       destruct (p d) eqn:Hpd; [|contradiction];
       destruct H as [<-|[]]; exists (String d ""); split; [reflexivity|];
       cbn in Hr |- *; now rewrite (Hr d Hpd).
  1,4: rewrite rests_Cat in H; apply in_flat_map in H as (mid & Hmid & Hrest);
       destruct Hr as [Hr1 Hr2];
       apply (IH1 _ _ Hr1) in Hmid as (p1 & -> & Hp1);
       apply (IH2 _ _ Hr2) in Hrest as (p2 & -> & Hp2);
       exists (p1 ++ p2); split; [now rewrite append_assoc|];
       now rewrite all_chars_app, Hp1, Hp2.
  2,4: rewrite rests_Opt in H; apply in_app_or in H as [H|[<-|[]]];
       [now apply IH1 | now exists ""].
  - cbn in H. destruct H as [<-|[]]. now exists "".
  - rewrite rests_Star in H. apply in_app_or in H as [H|[<-|[]]]; [|now exists ""].
    apply in_flat_map in H as (mid & Hmid & Hrest).
    apply (IH1 _ _ Hr) in Hmid as (p1 & -> & Hp1).
    destruct (Nat.ltb _ _); [|contradiction].
    apply (IHf (Star r1) _ _ Hr) in Hrest as (p2 & -> & Hp2).
    exists (p1 ++ p2). split; [now rewrite append_assoc|].
    now rewrite all_chars_app, Hp1, Hp2.
Qed.

Lemma rests_lit fuel t k s rest :
  In rest (rests fuel (lit t k) s) ->
  exists s', s = t ++ s' /\ In rest (rests fuel k s').
Proof.
  revert s. induction t as [|c t IH]; intros s H.
  - now exists s.
  - cbn [lit] in H. rewrite rests_Cat in H.
    apply in_flat_map in H as (mid & Hmid & Hrest).
    rewrite rests_Chr in Hmid. destruct s as [|d s]; [contradiction|].
    destruct (Ascii.eqb c d) eqn:Hcd; [|contradiction].
    destruct Hmid as [<-|[]]. apply Ascii.eqb_eq in Hcd as <-.
    apply IH in Hrest as (s' & -> & Hrest). now exists s'.
Qed.

Lemma space_is_declaration_char d : space d = true -> declaration_char d = true.
Proof. intros H. unfold declaration_char. now rewrite H. Qed.

Lemma word_is_declaration_char d : word d = true -> declaration_char d = true.
Proof. intros H. unfold declaration_char. now rewrite H, orb_true_r. Qed.

Lemma package_re_rest fuel s rest :
  In rest (rests fuel package_re s) ->
  exists q, s = "package" ++ q ++ ";" ++ rest /\ all_chars declaration_char q = true.
Proof.
  intros H. unfold package_re in H.
  apply rests_lit in H as (s1 & -> & H).
  rewrite rests_Cat in H. apply in_flat_map in H as (m1 & H1 & H).
  rewrite rests_Cat in H. apply in_flat_map in H as (m2 & H2 & H).
  rewrite rests_Cat in H. apply in_flat_map in H as (m3 & H3 & H).
  apply (rests_chars declaration_char) in H1 as (q1 & -> & Hq1);
    [|exact space_is_declaration_char].
  apply (rests_chars declaration_char) in H2 as (q2 & -> & Hq2);
    [|split; [exact word_is_declaration_char | reflexivity]].
  apply (rests_chars declaration_char) in H3 as (q3 & -> & Hq3);
    [|exact space_is_declaration_char].
  rewrite rests_Chr in H. destruct m3 as [|d m3]; [contradiction|].
  destruct (Ascii.eqb ";" d) eqn:Hd; [|contradiction].
  destruct H as [<-|[]]. apply Ascii.eqb_eq in Hd as <-.
  exists (q1 ++ q2 ++ q3). split.
  - now rewrite !append_assoc.
  - now rewrite !all_chars_app, Hq1, Hq2, Hq3.
Qed.

Lemma append_cancel_r (a b rest : string) : a ++ rest = b ++ rest -> a = b.
Proof.
  revert b. induction a as [|x a IH]; intros b H.
  - destruct b as [|y b]; [reflexivity|].
    apply (f_equal String.length) in H. cbn [append String.length] in H.
    rewrite length_append in H. lia.
  - destruct b as [|y b].
    + apply (f_equal String.length) in H. cbn [append String.length] in H.
      rewrite length_append in H. lia.
    + cbn [append] in H. injection H as -> H. f_equal. exact (IH b H).
Qed.

Lemma match_here_rest r s m :
  match_here r s = Some m ->
  exists rest, In rest (rests (String.length s) r s) /\ s = m ++ rest.
Proof.
  intros H. pose proof (match_here_split r s m H) as (rest0 & Hs0).
  unfold match_here in H.
  destruct (rests (String.length s) r s) as [|rest l] eqn:Hr; [discriminate|].
  injection H as H. exists rest. split; [now left|].
  destruct (rests_suffix (String.length s) r s rest) as (pre & Hs);
    [rewrite Hr; now left|].
  rewrite <- H. rewrite Hs at 1 2. rewrite length_append.
  replace (String.length pre + String.length rest - String.length rest)
    with (String.length pre) by lia.
  rewrite Hs at 1. now rewrite take_append.
Qed.

Lemma search_match r s m :
  search r s = Some m ->
  exists u s0, s = u ++ s0 /\ match_here r s0 = Some m.
Proof.
  induction s as [|c s IH]; cbn [search]; intros H.
  - destruct (match_here r "") as [m'|] eqn:Hm; [|discriminate].
    injection H as ->. now exists "", "".
  - destruct (match_here r (String c s)) as [m'|] eqn:Hm.
    + injection H as ->. now exists "", (String c s).
    + destruct (IH H) as (u & s0 & -> & Hs0). now exists (String c u), s0.
Qed.

Lemma package_match_parts s m :
  search package_re s = Some m ->
  exists q u v,
    m = "package" ++ q ++ ";" /\
    all_chars declaration_char q = true /\
    s = u ++ m ++ v.
Proof.
  intros H. apply search_match in H as (u & s0 & -> & H).
  apply match_here_rest in H as (rest & Hin & Hs0).
  apply package_re_rest in Hin as (q & Hq & Hall).
  exists q, u, rest.
  split; [|split; [exact Hall | now rewrite <- Hs0]].
  apply (append_cancel_r _ _ rest). rewrite <- Hs0, Hq.
  now rewrite !append_assoc.
Qed.

(** X12: The text of the declaration that step 5 finds is the keyword [package],
    then characters that are spaces, word characters or dots, then one
    semicolon, the only one of the match: the match ends at the first
    semicolon after the keyword, and the text searched is of the form
    [u ++ m ++ v]. *)
Theorem package_match_shape s m :
  search package_re s = Some m ->
  exists q u v,
    m = "package" ++ q ++ ";" /\
    all_chars declaration_char q = true /\
    has_char ";" q = false /\
    s = u ++ m ++ v.
Proof.
  intros H. apply package_match_parts in H as (q & u & v & Hm & Hall & Hs).
  exists q, u, v. repeat split; try assumption.
  now apply (all_chars_has_char declaration_char).
Qed.

(** X13: A source without the text [package], or without a semicolon, has no
    declaration for step 5: the rewriting raises [AttributeError]. *)
Theorem source_without_keyword_is_rejected cfg name src w :
  contains "package" src = false \/ has_char ";" src = false ->
  rewrite_source cfg name src w = (Raised "AttributeError", w).
Proof.
  intros H. unfold rewrite_source.
  destruct (search package_re src) as [m|] eqn:Hsearch; [|reflexivity].
  exfalso. apply package_match_parts in Hsearch as (q & u & v & -> & _ & ->).
  destruct H as [H|H].
  - rewrite !append_assoc in H.
    now rewrite (contains_middle u "package" (q ++ ";" ++ v)) in H.
  - rewrite !has_char_app in H. cbn in H.
    now rewrite !orb_true_r in H.
Qed.

Lemma intersperse_prefix new s : prefix new (replace "" new s) = true.
Proof.
  cbn [replace]. destruct s; cbn [intersperse]; [|apply prefix_append].
  rewrite <- (append_nil_r new) at 2. apply prefix_append.
Qed.

(** X14: The substitution of the class name leaves a source that does not
    mention the job name as the package substitution made it. *)
Theorem rewrite_without_class_name cfg name src w group0 :
  search package_re src = Some group0 ->
  name <> "" ->
  contains name (replace group0 (target_package cfg) src) = false ->
  rewrite_source cfg name src w =
    (Returned (replace group0 (target_package cfg) src), w).
Proof.
  intros Hsearch Hname Habsent. unfold rewrite_source. rewrite Hsearch.
  now rewrite (replace_absent name HARNESS _ Hname Habsent).
Qed.

(** X15: With an empty job name, line 177 puts SparkJobMigratory before every
    character of the source and at its end: a text of [n] characters comes
    out with [n + 17 * (n + 1)] characters. *)
Theorem empty_job_name_floods_the_source cfg src w group0 :
  search package_re src = Some group0 ->
  exists out,
    rewrite_source cfg "" src w = (Returned out, w) /\
    prefix HARNESS out = true /\
    String.length out =
      String.length (replace group0 (target_package cfg) src) +
      (String.length (replace group0 (target_package cfg) src) + 1) * 17.
Proof.
  intros Hsearch. eexists. split; [|split].
  - unfold rewrite_source. rewrite Hsearch. reflexivity.
  - apply intersperse_prefix.
  - now rewrite replace_empty_length.
Qed.

End PackageDeclaration.

(** ** Further properties: the target package *)

Section TargetPackage.
Import PyStr PyStrFacts.

Variable cfg : config.

Lemma slice_inner x mid y : slice 1 (-1) (String x (mid ++ String y "")) = mid.
Proof.
  unfold slice. rewrite clamp_minus_one.
  change 1%Z with (Z.of_nat 1).
  rewrite clamp_nat by (cbn [String.length]; lia).
  cbn [String.length drop]. rewrite length_append. cbn [String.length].
  replace (S (String.length mid + 1) - 1 - 1) with (String.length mid) by lia.
  apply take_append.
Qed.

Lemma slice_from_one x t : slice_from 1 (String x t) = t.
Proof.
  unfold slice_from. change 1%Z with (Z.of_nat 1).
  rewrite clamp_nat by (cbn [String.length]; lia). reflexivity.
Qed.

Lemma replace_char_one c new d :
  replace (String c "") new (String d "") =
  if Ascii.eqb c d then new else String d "".
Proof.
  rewrite replace_char_cons, replace_char_nil. apply append_nil_r.
Qed.

(** X16: The slices of lines 176, 194 and 211 drop the first character of the
    dotted executor location, and line 176 the last one as well, whatever
    these characters are.  For a location [a ++ d ++ b] with characters [a]
    and [b], the package written into the source is [d] with dots for
    slashes, and the class given to [jar] and [spark-submit] is that package,
    then [b] (a dot when [b] is a slash), then [SparkJobMigratory]. *)
Theorem target_package_of_location a d b :
  EXECUTOR_LOCATION cfg = String a (d ++ String b "") ->
  target_package cfg = "package " ++ replace "/" "." d ++ ";" /\
  dotted_location cfg = replace "/" "." d ++ replace "/" "." (String b "") /\
  has_char "/" (replace "/" "." d) = false.
Proof.
  intros Hloc.
  assert (Hdots : replace "/" "." (EXECUTOR_LOCATION cfg) =
                  String (if Ascii.eqb "/" a then "."%char else a)
                         (replace "/" "." d ++
                          String (if Ascii.eqb "/" b then "."%char else b) "")).
  { rewrite Hloc. rewrite replace_char_cons, replace_char_app, replace_char_one.
    destruct (Ascii.eqb "/" a), (Ascii.eqb "/" b); reflexivity. }
  split; [|split].
  - unfold target_package. rewrite Hdots, slice_inner. reflexivity.
  - unfold dotted_location. rewrite Hdots, slice_from_one, replace_char_one.
    now destruct (Ascii.eqb "/" b).
  - now apply replaced_char_is_gone_aux.
Qed.

End TargetPackage.

(** ** Further properties: whole runs *)

Section Runs.
Import PyStrFacts.

Variable cfg : config.
Variable e : env.

Lemma continues_weaken (P Q : event -> bool) w w' :
  (forall ev, P ev = true -> Q ev = true) -> continues P w w' -> continues Q w w'.
Proof.
  intros HPQ (evs & Htr & Hevs). exists evs. split; [exact Htr|].
  rewrite forallb_forall in Hevs |- *. intros ev Hev. apply HPQ, Hevs, Hev.
Qed.

Lemma update_filter_params_talks_to_services lam w :
  continues keystone_or_get w (snd (update_filter_params cfg e lam w)).
Proof.
  rewrite update_filter_params_run.
  destruct (token_of e w) as [token|]; cbn [snd].
  - exists (keystone_events cfg w ++ [policy_list_get cfg token])%list.
    split; [apply after_get_trace|].
    unfold keystone_events. now destruct (valid_token w).
  - exists (keystone_events cfg w). unfold after_token, keystone_events.
    destruct (valid_token w); cbn [trace]; [now rewrite app_nil_r | now split].
Qed.

Lemma select_on_events analyzer path w :
  continues pushdown_on_event w (snd (select_source cfg e analyzer path "True" w)).
Proof.
  unfold select_source, select_source_with. cbn [String.eqb Ascii.eqb Bool.eqb].
  unfold executeJavaAnalyzer, bind at 1 2, emit.
  set (w0 := mkWorld (valid_token w) (trace w ++ [EvAnalyzer analyzer path])%list).
  assert (H0 : continues pushdown_on_event w w0) by (now exists [EvAnalyzer analyzer path]).
  destruct (json_load e _) as [job|]; cbn [ret raise snd]; [|exact H0].
  unfold bind.
  pose proof (update_filter_params_talks_to_services (lambdas job) w0) as H1.
  apply (continues_weaken _ pushdown_on_event) in H1.
  2:{ intros ev Hev. unfold pushdown_on_event, keystone_or_get in *.
      destruct (is_analyzer ev); [reflexivity | exact Hev]. }
  destruct (update_filter_params cfg e (lambdas job) w0) as [[r|exn] w1];
    cbn [snd ret] in *; exact (continues_trans _ _ _ _ H0 H1).
Qed.

Lemma select_off_events analyzer path flag w :
  flag <> "True" ->
  continues pushdown_off_event w (snd (select_source cfg e analyzer path flag w)).
Proof.
  intros Hflag. apply String.eqb_neq in Hflag.
  unfold select_source, select_source_with. rewrite Hflag. unfold bind at 1.
  pose proof (update_filter_params_talks_to_services [] w) as H1.
  apply (continues_weaken _ pushdown_off_event) in H1.
  2:{ intros ev Hev. unfold pushdown_off_event, keystone_or_get in *.
      now rewrite Hev. }
  destruct (update_filter_params cfg e [] w) as [[r|exn] w1];
    cbn [snd] in *; [|exact H1].
  unfold read_file, bind, emit.
  assert (H2 : continues pushdown_off_event w1
                 (mkWorld (valid_token w1) (trace w1 ++ [EvRead path])%list))
    by (now exists [EvRead path]).
  destruct (file_contents e path); cbn [ret raise snd];
    exact (continues_trans _ _ _ _ H1 H2).
Qed.

Lemma main_short argv w :
  List.length argv <= 3 -> main cfg e argv w = (Raised "IndexError", w).
Proof.
  intros H. destruct argv as [|a0 [|a1 [|a2 [|a3 rest]]]];
    [reflexivity | reflexivity | reflexivity | reflexivity | cbn in H; lia].
Qed.

(** What a run adds to the trace: the events of the choice of the source,
    then, when the source is rewritten, the calls of the build phase up to
    the first that raises. *)
Lemma main_events argv analyzer path flag w :
  nth_error argv 1 = Some analyzer ->
  nth_error argv 2 = Some path ->
  nth_error argv 3 = Some flag ->
  (exists exn,
     fst (main cfg e argv w) = Raised exn /\
     snd (main cfg e argv w) = snd (select_source cfg e analyzer path flag w)) \/
  (exists out,
     fst (main cfg e argv w) = perform_outcome e (stage_list cfg out) /\
     valid_token (snd (main cfg e argv w)) =
       valid_token (snd (select_source cfg e analyzer path flag w)) /\
     trace (snd (main cfg e argv w)) =
       (trace (snd (select_source cfg e analyzer path flag w)) ++
        performed e (stage_list cfg out))%list).
Proof.
  intros H1 H2 H3. rewrite (main_run cfg e argv analyzer path flag w H1 H2 H3).
  destruct (select_source cfg e analyzer path flag w) as [[src|exn] w1] eqn:Hsel;
    cbn [snd].
  - rewrite (bind_returned _ _ _ _ _ Hsel).
    destruct (search package_re src) as [g|] eqn:Hsearch.
    + right. eexists.
      erewrite bind_returned
        by (unfold rewrite_source; rewrite Hsearch; reflexivity).
      rewrite build_and_submit_run. cbn [fst snd valid_token trace].
      repeat split.
    + left. exists "AttributeError".
      erewrite bind_raised
        by (unfold rewrite_source; rewrite Hsearch; reflexivity).
      now split.
  - left. exists exn. rewrite (bind_raised _ _ _ _ _ Hsel). now split.
Qed.

(** X17: A run with fewer than three arguments after the script name stops with
    [IndexError] before anything leaves the process. *)
Theorem short_argv_stops_at_once argv w :
  List.length argv <= 3 ->
  main cfg e argv w = (Raised "IndexError", w) /\
  new_events (main cfg e argv) w = [].
Proof.
  intros H. split; [now apply main_short|].
  apply new_events_app. rewrite main_short by exact H. cbn [snd].
  now rewrite app_nil_r.
Qed.



Lemma main_continues (Q : event -> bool) argv w :
  (forall ev, is_build ev = true -> Q ev = true) ->
  (forall analyzer path flag,
     nth_error argv 3 = Some flag ->
     continues Q w (snd (select_source cfg e analyzer path flag w))) ->
  continues Q w (snd (main cfg e argv w)).
Proof.
  intros Hbuild Hsel.
  destruct (Nat.le_gt_cases (List.length argv) 3) as [Hshort|Hlong].
  - rewrite main_short by exact Hshort. apply continues_refl.
  - destruct argv as [|a0 [|analyzer [|path [|flag rest]]]]; try (cbn in Hlong; lia).
    pose proof (Hsel analyzer path flag eq_refl) as Hc.
    destruct (main_events (a0 :: analyzer :: path :: flag :: rest)
                analyzer path flag w eq_refl eq_refl eq_refl)
      as [(exn & _ & Hw)|(out & _ & _ & Hw)].
    + now rewrite Hw.
    + apply (continues_trans _ _ _ _ Hc).
      exists (performed e (stage_list cfg out)). split; [exact Hw|].
      apply performed_forall. cbn. rewrite !Hbuild; reflexivity.
Qed.

(** X19: A run never sends a PUT: the script reads the policies of the
    controller and updates none, with any arguments and any answers. *)
Theorem run_never_updates_a_policy argv w :
  filter is_put (new_events (main cfg e argv) w) = [].
Proof.
  apply filter_none. apply (continues_new_events (fun ev => negb (is_put ev))).
  apply main_continues.
  - now intros [].
  - intros analyzer path flag _.
    destruct (String.eqb_spec flag "True") as [->|Hflag].
    + apply (continues_weaken pushdown_on_event); [now intros []|].
      apply select_on_events.
    + apply (continues_weaken pushdown_off_event); [now intros []|].
      now apply select_off_events.
Qed.

(** X20: The two modes read the job from different places: with the flag
    ["True"] the run never opens the job file itself, with any other flag it
    never runs the analyzer. *)
Theorem modes_read_the_job_differently argv flag w :
  nth_error argv 3 = Some flag ->
  (flag = "True" -> filter is_read (new_events (main cfg e argv) w) = []) /\
  (flag <> "True" -> filter is_analyzer (new_events (main cfg e argv) w) = []).
Proof.
  intros Hflag. split; intros H.
  - apply filter_none. apply (continues_new_events (fun ev => negb (is_read ev))).
    apply main_continues; [now intros []|].
    intros analyzer path flag' Hflag'.
    assert (flag' = "True") as -> by congruence.
    apply (continues_weaken pushdown_on_event); [now intros []|].
    apply select_on_events.
  - apply filter_none. apply (continues_new_events (fun ev => negb (is_analyzer ev))).
    apply main_continues; [now intros []|].
    intros analyzer path flag' Hflag'.
    assert (flag' = flag) as -> by congruence.
    apply (continues_weaken pushdown_off_event); [now intros []|].
    now apply select_off_events.
Qed.

Lemma update_filter_params_keeps_token lam w t :
  valid_token w = Some t ->
  valid_token (snd (update_filter_params cfg e lam w)) = Some t.
Proof.
  intros Hv.
  assert (Htok : token_of e w = Some t) by (unfold token_of; now rewrite Hv).
  rewrite update_filter_params_run, Htok. cbn [snd after_get valid_token].
  exact (after_token_valid cfg e w t Htok).
Qed.

Lemma select_source_keeps_token analyzer path flag w t :
  valid_token w = Some t ->
  valid_token (snd (select_source cfg e analyzer path flag w)) = Some t.
Proof.
  intros Hv. unfold select_source, select_source_with.
  destruct (String.eqb flag "True").
  - unfold executeJavaAnalyzer, bind at 1 2, emit.
    destruct (json_load e _) as [job|]; cbn [ret raise snd]; [|exact Hv].
    unfold bind.
    pose proof (update_filter_params_keeps_token (lambdas job)
                  (mkWorld (valid_token w)
                     (trace w ++ [EvAnalyzer analyzer path])%list) t Hv) as H1.
    destruct (update_filter_params cfg e (lambdas job) _) as [[r|exn] w1];
      exact H1.
  - unfold bind at 1.
    pose proof (update_filter_params_keeps_token [] w t Hv) as H1.
    destruct (update_filter_params cfg e [] w) as [[r|exn] w1];
      cbn [snd] in *; [|exact H1].
    unfold read_file, bind, emit.
    destruct (file_contents e path); exact H1.
Qed.

(** X21: A cached token outlives the run: no step of [main] replaces or clears
    the token that [valid_token] holds. *)
Theorem run_keeps_the_cached_token argv w t :
  valid_token w = Some t ->
  valid_token (snd (main cfg e argv w)) = Some t.
Proof.
  intros Hv.
  destruct (Nat.le_gt_cases (List.length argv) 3) as [Hshort|Hlong].
  - now rewrite main_short by exact Hshort.
  - destruct argv as [|a0 [|analyzer [|path [|flag rest]]]]; try (cbn in Hlong; lia).
    pose proof (select_source_keeps_token analyzer path flag w t Hv) as Hsel.
    destruct (main_events (a0 :: analyzer :: path :: flag :: rest)
                analyzer path flag w eq_refl eq_refl eq_refl)
      as [(exn & _ & Hw)|(out & _ & Hw & _)]; now rewrite Hw.
Qed.

(** X22: With pushdown on, a job that has lambdas and a controller that has no
    policy at all end the run in the [UnboundLocalError] of line 77, after
    the analyzer and the GET and before anything is built. *)
Theorem pushdown_run_without_policies_crashes argv analyzer path w job token :
  nth_error argv 1 = Some analyzer ->
  nth_error argv 2 = Some path ->
  nth_error argv 3 = Some "True" ->
  json_load e (json_lines (analyzer_lines e analyzer path)) = Some job ->
  lambdas job <> [] ->
  static_policies e = [] ->
  token_of e w = Some token ->
  fst (main cfg e argv w) = Raised "UnboundLocalError" /\
  new_events (main cfg e argv) w =
    (EvAnalyzer analyzer path :: keystone_events cfg w ++
     [policy_list_get cfg token])%list.
Proof.
  intros H1 H2 H3 Hjson Hlam Hps Htok.
  set (w0 := mkWorld (valid_token w) (trace w ++ [EvAnalyzer analyzer path])%list).
  assert (Hsel : select_source cfg e analyzer path "True" w =
                 (Raised "UnboundLocalError", after_get cfg e w0 token)).
  { unfold select_source, select_source_with. cbn [String.eqb Ascii.eqb Bool.eqb].
    unfold executeJavaAnalyzer, bind at 1 2, emit. rewrite Hjson. cbn [ret].
    fold w0.
    assert (Hup : update_filter_params cfg e (lambdas job) w0 =
                  (Raised "UnboundLocalError", after_get cfg e w0 token)).
    { rewrite update_filter_params_run.
      change (token_of e w0) with (token_of e w). rewrite Htok, Hps.
      destruct (lambdas job); [congruence | reflexivity]. }
    now rewrite (bind_raised _ _ _ _ _ Hup). }
  assert (Hmain : main cfg e argv w =
                  (Raised "UnboundLocalError", after_get cfg e w0 token)).
  { rewrite (main_run cfg e argv analyzer path "True" w H1 H2 H3).
    now rewrite (bind_raised _ _ _ _ _ Hsel). }
  split; [now rewrite Hmain|].
  apply new_events_app. rewrite Hmain. cbn [snd].
  rewrite after_get_trace. unfold w0. cbn [trace].
  change (keystone_events cfg (mkWorld (valid_token w) _))
    with (keystone_events cfg w).
  now rewrite <- app_assoc.
Qed.


End Runs.

(** ** The further properties at sample inputs *)

Lemma token_is_acquired_once_witness :
  get_or_update_token shipped no_answer fresh =
    (Returned "tok",
     mkWorld (Some "tok")
       [EvKeystone (AUTH_URL shipped) (USERNAME shipped) (PASSWORD shipped)
          (TENANT shipped)]) /\
  get_or_update_token deployed rekeyed
    (mkWorld (Some "tok")
       [EvKeystone (AUTH_URL shipped) (USERNAME shipped) (PASSWORD shipped)
          (TENANT shipped)]) =
    (Returned "tok",
     mkWorld (Some "tok")
       [EvKeystone (AUTH_URL shipped) (USERNAME shipped) (PASSWORD shipped)
          (TENANT shipped)]).
Proof.
  split; [reflexivity|].
  apply (token_is_acquired_once shipped no_answer fresh "tok" _ deployed rekeyed).
  reflexivity.
Defined.

Lemma failed_acquisition_is_retried_witness :
  fst (get_or_update_token shipped no_keystone fresh) = Raised "AttributeError" /\
  fst (get_or_update_token shipped no_answer
         (snd (get_or_update_token shipped no_keystone fresh))) = Returned "tok".
Proof.
  destruct (failed_acquisition_is_retried shipped no_keystone fresh no_answer "tok"
              eq_refl eq_refl eq_refl) as (H1 & _ & _ & H4 & _).
  split; assumption.
Defined.


Lemma only_the_last_policy_is_tested_witness :
  has_pushdown_policy shipped (with_policies pushdown_then_other) "c1" = true /\
  container_body shipped no_answer "tok" pushdown_then_other c1_lambdas "c1"
    (mkLocals None None) fresh = (Returned (Return None), fresh).
Proof.
  split; [reflexivity|].
  apply (only_the_last_policy_is_tested shipped no_answer "tok"
           [pushdown_on "7" "AUTH_x/c1"] (other_filter "8" "AUTH_x/c1")
           c1_lambdas "c1" (mkLocals None None) fresh).
  reflexivity.
Defined.

Lemma json_lines_from_first_marker_witness :
  json_lines chatty_lines = json_marker ++ " ..., " ++ "  ...}".
Proof.
  apply (json_lines_from_first_marker ["Parsing job"; "Found 1 lambda"]
           (json_marker ++ " ..., ") ["  ...}"]); reflexivity.
Defined.

Lemma analyzer_without_marker_parses_nothing_witness :
  json_lines (analyzer_lines (answering [] None None) "analyzer.jar" "/jobs/Foo.java") = "" /\
  fst (executeJavaAnalyzer (answering [] None None) "analyzer.jar" "/jobs/Foo.java" fresh) =
    Raised "ValueError".
Proof.
  apply (analyzer_without_marker_parses_nothing (answering [] None None)
           "analyzer.jar" "/jobs/Foo.java" fresh).
  reflexivity.
Defined.

Lemma job_name_of_file_witness : job_name_of "/jobs/Foo.java" = "Foo".
Proof.
  apply (job_name_of_file "/jobs/" "Foo" "java");
    [right; exists "/jobs"; reflexivity | reflexivity | reflexivity
     | reflexivity | reflexivity].
Defined.

Lemma job_name_without_dot_witness : job_name_of "/jobs/Foo" = "Fo".
Proof.
  apply (job_name_without_dot "/jobs/" "Foo");
    [right; exists "/jobs"; reflexivity | reflexivity | reflexivity].
Defined.

Lemma job_name_empty_when_dot_in_directory_witness :
  job_name_of "/home/spark-2.1/jobs/Foo" = "".
Proof.
  apply (job_name_empty_when_dot_in_directory "/home/spark-2" "1/jobs" "Foo");
    reflexivity.
Defined.

Lemma package_match_shape_witness :
  exists q u v,
    "package old.name;" = "package" ++ q ++ ";" /\
    all_chars declaration_char q = true /\
    has_char ";" q = false /\
    two_declarations = u ++ "package old.name;" ++ v.
Proof.
  apply (package_match_shape two_declarations "package old.name;").
  reflexivity.
Defined.

Lemma source_without_keyword_is_rejected_witness :
  PyStr.contains "package" no_package = false /\
  rewrite_source deployed "Foo" no_package fresh = (Raised "AttributeError", fresh).
Proof.
  split; [reflexivity|].
  apply (source_without_keyword_is_rejected deployed "Foo" no_package fresh).
  left. reflexivity.
Defined.

Lemma target_package_of_location_witness :
  target_package deployed = "package home.spark.executor;" /\
  dotted_location deployed = "home.spark.executor." /\
  has_char "/" "home.spark.executor" = false.
Proof.
  apply (target_package_of_location deployed "/" "home/spark/executor" "/").
  reflexivity.
Defined.

Lemma short_argv_stops_at_once_witness :
  main deployed no_answer ["executor.py"; "analyzer.jar"; "/jobs/Foo.java"] fresh =
    (Raised "IndexError", fresh) /\
  new_events (main deployed no_answer ["executor.py"; "analyzer.jar"; "/jobs/Foo.java"])
    fresh = [].
Proof.
  apply (short_argv_stops_at_once deployed no_answer
           ["executor.py"; "analyzer.jar"; "/jobs/Foo.java"] fresh).
  cbn. lia.
Defined.

Lemma modes_read_the_job_differently_witness :
  filter is_read
    (new_events (main deployed (answering [] (Some foo_job) (Some foo_file))
                   pushdown_argv) fresh) = [] /\
  filter is_analyzer
    (new_events (main deployed (answering [] (Some foo_job) (Some foo_file))
                   plain_argv) fresh) = [].
Proof.
  split.
  - apply (proj1 (modes_read_the_job_differently deployed
                    (answering [] (Some foo_job) (Some foo_file))
                    pushdown_argv "True" fresh eq_refl)).
    reflexivity.
  - apply (proj2 (modes_read_the_job_differently deployed
                    (answering [] (Some foo_job) (Some foo_file))
                    plain_argv "False" fresh eq_refl)).
    discriminate.
Defined.

Lemma run_keeps_the_cached_token_witness :
  valid_token
    (snd (main deployed (answering [] None (Some foo_file)) plain_argv cached)) =
    Some "cached-token".
Proof.
  apply (run_keeps_the_cached_token deployed (answering [] None (Some foo_file))
           plain_argv cached "cached-token").
  reflexivity.
Defined.

Lemma pushdown_run_without_policies_crashes_witness :
  fst (main deployed (answering [] (Some foo_job) None) pushdown_argv fresh) =
    Raised "UnboundLocalError" /\
  new_events (main deployed (answering [] (Some foo_job) None) pushdown_argv) fresh =
    [EvAnalyzer "analyzer.jar" "/jobs/Foo.java";
     EvKeystone (AUTH_URL deployed) (USERNAME deployed) (PASSWORD deployed)
       (TENANT deployed);
     EvGet "http://IP:9000/controller/static_policy/" "tok"].
Proof.
  apply (pushdown_run_without_policies_crashes deployed
           (answering [] (Some foo_job) None) pushdown_argv
           "analyzer.jar" "/jobs/Foo.java" fresh foo_job "tok");
    try reflexivity.
  discriminate.
Defined.


Lemma rewrite_without_class_name_witness :
  rewrite_source deployed "Foo" "package a; class Bar {}" fresh =
    (Returned "package home.spark.executor; class Bar {}", fresh).
Proof.
  apply (rewrite_without_class_name deployed "Foo" "package a; class Bar {}" fresh
           "package a;"); [reflexivity | discriminate | reflexivity].
Defined.

Lemma empty_job_name_floods_the_source_witness :
  exists out,
    rewrite_source deployed "" job_named_job fresh = (Returned out, fresh) /\
    prefix HARNESS out = true /\
    String.length out =
      String.length (PyStr.replace "package com.acme;" (target_package deployed)
                       job_named_job) +
      (String.length (PyStr.replace "package com.acme;" (target_package deployed)
                        job_named_job) + 1) * 17.
Proof.
  apply (empty_job_name_floods_the_source deployed job_named_job fresh
           "package com.acme;").
  reflexivity.
Defined.
